(** * use-simple-form-state: the form hook, embedded and verified

    The development follows [src/use-simple-form-state.ts].

    - [Js]: the JavaScript values a form holds (plain data: primitives,
      arrays and plain objects, every object with its identity), what a
      property read returns (an own property, or a member inherited from
      [Object.prototype]), the operators the hook applies ([typeof],
      [!= null], [??], [!!], [===], assignment) and the two library
      functions it imports: [isEqual] (fast-deep-equal) and
      [structuredClone].
    - [React]: state cells, the callbacks' effect monad with exceptions,
      and [useMemo] / [useCallback] with their dependency arrays.
    - [Hook]: [useSimpleFormState] itself, one definition per source
      function, and the sessions of a component: mount, then events each
      followed by a re-render, with the same options object at every
      render ([run]) or with an object of the component's choice at each
      ([run_with]).
    - the theorems about the hook. *)

From Stdlib Require Import ZArith Floats.SpecFloat.
From stdpp Require Import gmap strings list fin_maps.

#[local] Open Scope string_scope.
#[local] Open Scope nat_scope.
#[local] Open Scope list_scope.
#[local] Set Warnings "-register-all".

(* ===================================================================== *)
(** ** JavaScript values *)
(* ===================================================================== *)

Module Js.

(** An object identity (its address in the JavaScript heap). *)
Definition loc := nat.

(** A JavaScript number is an IEEE 754 binary64. *)
Definition num := spec_float.
Definition NaN : num := S754_nan.

(** Plain data. An array or object carries its identity: two occurrences
    of the same identity are the same heap object (aliasing), and [===]
    on objects compares identities only. *)
#[local] Unset Elimination Schemes.
Inductive value :=
| VUndefined
| VNull
| VBool (b : bool)
| VNum (n : num)
| VStr (s : string)
| VArr (l : loc) (items : list value)
| VObj (l : loc) (props : gmap string value).
#[local] Set Elimination Schemes.

(** A top-level object whose properties all have type [A]: [values]
    ([A] = [value]) and [dirty] ([A] = [bool]). *)
Record jsobj (A : Type) := JsObj { oid : loc; props : gmap string A }.
Arguments JsObj {A} _ _.
Arguments oid {A} _.
Arguments props {A} _.

Definition to_value (o : jsobj value) : value := VObj (oid o) (props o).

(** What reading a property of a plain object returns: data, or a member
    the object inherits from [Object.prototype], which is a builtin
    function or, for [__proto__], [Object.prototype] itself. *)
Inductive property :=
| Data (v : value)
| Builtin (name : string)
| ObjectPrototype.
Coercion Data : value >-> property.

(** The names of the functions of [Object.prototype]. *)
Definition Object_prototype_functions : list string :=
  ["constructor"; "__defineGetter__"; "__defineSetter__"; "hasOwnProperty";
   "__lookupGetter__"; "__lookupSetter__"; "isPrototypeOf";
   "propertyIsEnumerable"; "toString"; "valueOf"; "toLocaleString"].

(** [o[name]] on a plain object: the own property when there is one;
    otherwise the lookup goes to [Object.prototype], whose accessor
    [__proto__] returns the prototype and whose other members are
    functions; a name found nowhere reads as [undefined]. *)
Definition get (o : jsobj value) (name : string) : property :=
  match props o !! name with
  | Some v => Data v
  | None =>
      if bool_decide (name = "__proto__") then ObjectPrototype
      else if bool_decide (name ∈ Object_prototype_functions) then Builtin name
      else Data VUndefined
  end.

(** [o[key] = x] on a plain object, for [x] a boolean or a string: the
    own property [key] is created or overwritten, except for the key
    [__proto__]: the assignment then calls the setter inherited from
    [Object.prototype], which ignores a value that is neither an object
    nor [null], and [o] is left as it is. (An object literal with a
    computed key, [{ [key]: x }], defines the own property for every
    key.) *)
Definition assign {A} (key : string) (x : A) (o : gmap string A)
    : gmap string A :=
  if bool_decide (key = "__proto__") then o else <[key := x]> o.

(** [Object.is] on two objects: the same identity. *)
Definition Object_is {A B} (a : jsobj A) (b : jsobj B) : bool :=
  bool_decide (oid a = oid b).

Definition Object_keys {A} (o : gmap string A) : list string :=
  (map_to_list o).*1.
Definition Object_values {A} (o : gmap string A) : list A :=
  (map_to_list o).*2.
Definition Object_entries {A} (o : gmap string A) : list (string * A) :=
  map_to_list o.

(** [array.forEach(f)] where [f] updates one local accumulator. *)
Definition forEach {A S} (xs : list A) (f : A → S → S) (init : S) : S :=
  foldl (λ acc x, f x acc) init xs.

(** [array.some(p)]. *)
Definition some {A} (p : A → bool) (xs : list A) : bool := existsb p xs.

(** [Boolean] as a predicate on booleans. *)
Definition Boolean (b : bool) : bool := b.

(** [messages.join(sep)] on an array of strings. *)
Definition join (sep : string) (messages : list string) : string :=
  String.concat sep messages.

Inductive js_type :=
| TUndefined | TObject | TBoolean | TNumber | TString | TFunction.

Definition typeof (r : property) : js_type :=
  match r with
  | Data VUndefined => TUndefined
  | Data VNull => TObject
  | Data (VBool _) => TBoolean
  | Data (VNum _) => TNumber
  | Data (VStr _) => TString
  | Data (VArr _ _) | Data (VObj _ _) => TObject
  | Builtin _ => TFunction
  | ObjectPrototype => TObject
  end.

#[global] Instance js_type_eq_dec : EqDecision js_type.
Proof. solve_decision. Defined.

(** [r != null]: neither [null] nor [undefined]. *)
Definition not_nullish (r : property) : bool :=
  match r with
  | Data VUndefined | Data VNull => false
  | _ => true
  end.

(** [r ?? d]. *)
Definition nullish_or (r : property) (d : value) : property :=
  if not_nullish r then r else Data d.

(** [!!r]. *)
Definition truthy (r : property) : bool :=
  match r with
  | Data VUndefined | Data VNull => false
  | Data (VBool b) => b
  | Data (VNum (S754_zero _)) | Data (VNum S754_nan) => false
  | Data (VNum _) => true
  | Data (VStr s) => negb (bool_decide (s = ""))
  | Data (VArr _ _) | Data (VObj _ _) => true
  | Builtin _ | ObjectPrototype => true
  end.

(** [a === b]. *)
Definition strict_eq (a b : value) : bool :=
  match a, b with
  | VUndefined, VUndefined => true
  | VNull, VNull => true
  | VBool x, VBool y => bool_decide (x = y)
  | VNum x, VNum y => SFeqb x y
  | VStr x, VStr y => bool_decide (x = y)
  | VArr l _, VArr l' _ => bool_decide (l = l')
  | VObj l _, VObj l' _ => bool_decide (l = l')
  | _, _ => false
  end.

(** The function [equal] of fast-deep-equal on plain data: identical
    values are equal; two arrays are equal when they have the same length
    and equal elements; two plain objects when they have the same number
    of keys, every key of [a] is a key of [b] and the values under it are
    equal; an array never equals a plain object (different constructors);
    anything else is equal only when both sides are [NaN]. The library's
    other cases are for what plain form data does not hold: dates, regular
    expressions, maps, sets, typed arrays, and objects that define
    [constructor], [valueOf] or [toString] themselves. *)
Fixpoint equal (a b : value) {struct a} : bool :=
  if strict_eq a b then true else
  match a, b with
  | VArr _ xs, VArr _ ys =>
      (fix elements (xs ys : list value) : bool :=
         match xs, ys with
         | [], [] => true
         | x :: xs', y :: ys' => equal x y && elements xs' ys'
         | _, _ => false
         end) xs ys
  | VArr _ _, VObj _ _ | VObj _ _, VArr _ _ => false
  | VObj _ pa, VObj _ pb =>
      bool_decide (size pa = size pb) &&
      map_fold (λ key va ok,
                  ok && match pb !! key with
                        | Some vb => equal va vb
                        | None => false
                        end) true pa
  | _, _ => negb (strict_eq a a) && negb (strict_eq b b)
  end.

(** A plain object with no own key. *)
Definition no_keys (v : value) : bool :=
  match v with
  | VObj _ m => bool_decide (m = ∅)
  | _ => false
  end.

(** [isEqual(a, b)] on what two property reads returned. On data it is
    [equal]. A builtin function is identical to itself ([a === b]) and
    equal to nothing else: it is not of type ['object'] and it is not
    [NaN]. [Object.prototype] is an object with no enumerable key of its
    own, so beside itself it equals the plain objects that have no key. *)
Definition isEqual (a b : property) : bool :=
  match a, b with
  | Data x, Data y => equal x y
  | Builtin f, Builtin g => bool_decide (f = g)
  | ObjectPrototype, ObjectPrototype => true
  | Data x, ObjectPrototype | ObjectPrototype, Data x => no_keys x
  | _, _ => false
  end.

(** The contents of a value: what is left when the identities of its
    objects and the sign of its zeros are forgotten. *)
Fixpoint contents (v : value) : value :=
  match v with
  | VNum (S754_zero _) => VNum (S754_zero false)
  | VArr _ xs => VArr 0 (contents <$> xs)
  | VObj _ m => VObj 0 (contents <$> m)
  | _ => v
  end.

(** Renaming of the identities of a value. *)
Fixpoint relabel (f : loc → loc) (v : value) : value :=
  match v with
  | VArr l xs => VArr (f l) (relabel f <$> xs)
  | VObj l m => VObj (f l) (relabel f <$> m)
  | _ => v
  end.

(** One more than the largest identity in a value. *)
Fixpoint bound (v : value) : nat :=
  match v with
  | VArr l xs => S l `max` foldr (λ x n, bound x `max` n) 0 xs
  | VObj l m => S l `max` map_fold (λ _ x n, bound x `max` n) 0 m
  | _ => 0
  end.

(** Allocation: a computation that takes the heap's allocation pointer
    (every identity in use lies below it) and returns the new one. *)
Definition alloc (A : Type) : Type := loc → A * loc.

(** An object literal [{ ... }]: a new object at the allocation pointer. *)
Definition new_object {A} (m : gmap string A) : alloc (jsobj A) :=
  λ n, (JsObj n m, S n).

Definition relabel_obj (f : loc → loc) (o : jsobj value) : jsobj value :=
  JsObj (f (oid o)) (relabel f <$> props o).

(** [structuredClone(o)] on plain data: the same contents in new objects.
    The clone of the object at [l] is allocated at [n + l], [n] the
    allocation pointer: distinct source objects get distinct new objects
    and a source object met twice is cloned once, as the algorithm's
    memory map ensures. *)
Definition structuredClone (o : jsobj value) : alloc (jsobj value) :=
  λ n, (relabel_obj (λ l, n + l) o, n + bound (to_value o)).

(** [reaches l v]: the object [l] is [v] or is reachable from it. *)
Inductive reaches (l : loc) : value → Prop :=
| reaches_arr xs : reaches l (VArr l xs)
| reaches_item l' xs x : x ∈ xs → reaches l x → reaches l (VArr l' xs)
| reaches_obj m : reaches l (VObj l m)
| reaches_prop l' m k x : m !! k = Some x → reaches l x → reaches l (VObj l' m).

(** An in-place mutation of the object [l], seen from [v]: every
    occurrence of [l] in [v] becomes [f] of it. *)
Fixpoint update_at (l : loc) (f : value → value) (v : value) : value :=
  match v with
  | VArr l' xs =>
      let v' := VArr l' (update_at l f <$> xs) in
      if decide (l' = l) then f v' else v'
  | VObj l' m =>
      let v' := VObj l' (update_at l f <$> m) in
      if decide (l' = l) then f v' else v'
  | _ => v
  end.

(** Contents without identities. *)
Definition erase (v : value) : value := relabel (λ _, 0) v.

(** The number of nodes of a value, the measure for induction on values. *)
Fixpoint nodes (v : value) : nat :=
  match v with
  | VArr _ xs => S (foldr (λ x n, nodes x + n) 0 xs)
  | VObj _ m => S (map_fold (λ _ x n, nodes x + n) 0 m)
  | _ => 1
  end.

End Js.

(* ===================================================================== *)
(** ** React: state cells, effects and memoised hooks *)
(* ===================================================================== *)

Module React.
Import Js.

(** What a [throw] raises: a [ZodError], given by what the hook reads from
    it, [error.flatten().fieldErrors] (of type
    [{ [field]?: string[] }], so a field can be present with no list), or
    anything else. *)
Inductive thrown :=
| ZodError (fieldErrors : gmap string (option (list string)))
| OtherError (message : string).

Inductive outcome (A : Type) :=
| Return (a : A)
| Throw (e : thrown).
Arguments Return {A} _.
Arguments Throw {A} _.

(** The three [useState] cells of the hook and the heap's allocation
    pointer. [errors] and [touched] are never compared by identity, so
    they are kept as plain maps. *)
Record store := Store {
  values : jsobj value;
  errors : gmap string string;
  touched : gmap string bool;
  next : loc;
}.

(** A callback's effect: it updates the cells and returns or throws. *)
Definition M (A : Type) : Type := store → outcome A * store.

#[global] Instance M_ret : MRet M := λ A a s, (Return a, s).
#[global] Instance M_bind : MBind M := λ A B k m s,
  match m s with
  | (Return a, s') => k a s'
  | (Throw e, s') => (Throw e, s')
  end.

(** [try { body } catch (error) { handler }]. *)
Definition try_catch {A} (body : M A) (handler : thrown → M A) : M A :=
  λ s, match body s with
       | (Return a, s') => (Return a, s')
       | (Throw error, s') => handler error s'
       end.

(** A call that returns or throws and leaves the cells alone. *)
Definition call {A} (r : outcome A) : M A := λ s, (r, s).

(** [setValues(updater)]: the updater builds a new object from the
    previous one. *)
Definition setValues (updater : jsobj value → alloc (jsobj value)) : M unit :=
  λ s, let '(o, n) := updater (values s) (next s) in
       (Return tt, Store o (errors s) (touched s) n).

(** [setErrors(e)]. *)
Definition setErrors (e : gmap string string) : M unit :=
  λ s, (Return tt, Store (values s) e (touched s) (next s)).

(** [setTouched(updater)]. *)
Definition setTouched (updater : gmap string bool → gmap string bool) : M unit :=
  λ s, (Return tt, Store (values s) (errors s) (updater (touched s)) (next s)).

(** [useMemo(factory, deps)]: the cell keeps the dependencies and the
    result of the last computation; the factory runs again only when the
    dependencies are not the [same] as the kept ones ([Object.is]). *)
Definition useMemo {D A} (same : D → D → bool) (cell : option (D * A))
    (factory : alloc A) (deps : D) : alloc (A * option (D * A)) :=
  λ n, match cell with
       | Some (d, a) =>
           if same d deps then ((a, cell), n)
           else let '(a', n') := factory n in ((a', Some (deps, a')), n')
       | None => let '(a', n') := factory n in ((a', Some (deps, a')), n')
       end.

(** [useCallback(callback, deps)] is [useMemo(() => callback, deps)]; it
    allocates nothing. *)
Definition useCallback {D A} (same : D → D → bool) (cell : option (D * A))
    (callback : A) (deps : D) : A * option (D * A) :=
  fst (useMemo same cell (λ n, (callback, n)) deps 0).

(** Dependency arrays of no object, one object and two objects. *)
Definition same0 (_ _ : unit) : bool := true.
Definition same1 {A} (d d' : jsobj A) : bool := Object_is d d'.
Definition same2 {A B} (d d' : jsobj A * jsobj B) : bool :=
  Object_is d.1 d'.1 && Object_is d.2 d'.2.

End React.

(* ===================================================================== *)
(** ** The hook *)
(* ===================================================================== *)

Module Hook.
Import Js React.

(** The props a binding returns: [{ name, value, onChange }] for text,
    number and select inputs, [{ name, checked, onChange }] for a
    checkbox. [onChange] takes what the handler reads from the event:
    [event.target.value], a string, or [event.target.checked], a boolean. *)
Record input_props := InputProps {
  p_name : string;
  p_value : property;
  p_onChange : string → M unit;
}.

Record checkbox_props := CheckboxProps {
  c_name : string;
  c_checked : bool;
  c_onChange : bool → M unit;
}.

(** What the hook returns. *)
Record form := Form {
  f_values : jsobj value;
  f_errors : gmap string string;
  f_touched : gmap string bool;
  f_dirty : jsobj bool;
  f_isDirty : bool;
  bind_text : string → outcome input_props;
  bind_number : string → outcome input_props;
  bind_checkbox : string → outcome checkbox_props;
  bind_select : string → outcome input_props;
  f_setFieldValue : string → value → M unit;
  f_validate : M bool;
  f_reset : M unit;
}.

(** The cells of the seven [useCallback] and two [useMemo] calls, in the
    order of the source. Each keeps the objects of its dependency array
    that can change from one render to the next, [values],
    [options.initialValues] and [dirty], beside what it memoises; the
    callback [setFieldValue] has an empty dependency array and is the same
    function at every render. *)
Record memo := Memo {
  m_setFieldValue : option (unit * (string → value → M unit));
  m_text : option (jsobj value * (string → outcome input_props));
  m_number : option (jsobj value * (string → outcome input_props));
  m_checkbox : option (jsobj value * (string → outcome checkbox_props));
  m_select : option (jsobj value * (string → outcome input_props));
  m_validate : option (jsobj value * M bool);
  m_reset : option (jsobj value * M unit);
  m_dirty : option ((jsobj value * jsobj value) * jsobj bool);
  m_isDirty : option (jsobj bool * bool);
}.

Record hook := HookState { hk_store : store; hk_memo : memo }.

(** What a user of the form does between two renders. A change event
    goes to the [onChange] of the props the binding returned at the last
    render. *)
Inductive event :=
| SetFieldValue (name : string) (v : value)
| Validate
| Reset
| TextChange (name : string) (input : string)
| NumberChange (name : string) (input : string)
| CheckboxChange (name : string) (checked : bool)
| SelectChange (name : string) (input : string).

Section Args.

(** [schema.parse], [options.initialValues] and the builtin [Number] on
    strings. *)
Context (schema_parse : jsobj value → outcome value).
Context (initialValues : jsobj value).
Context (Number : string → num).

Definition setFieldValue (name : string) (v : value) : M unit :=
  setValues (λ previous, new_object (<[name := v]> (props previous)));;
  setTouched (λ previous, <[name := true]> previous).

Definition text (values : jsobj value)
    (setFieldValue : string → value → M unit) (name : string)
    : outcome input_props :=
  if not_nullish (get values name)
     && negb (bool_decide (typeof (get values name) = TString))
  then Throw (OtherError
         ("useSimpleFormState.text(): field '" ++ name ++ "' is not a string"))
  else Return {|
    p_name := name;
    p_value := nullish_or (get values name) (VStr "");
    p_onChange := λ input, setFieldValue name (VStr input);
  |}.

Definition number (values : jsobj value)
    (setFieldValue : string → value → M unit) (name : string)
    : outcome input_props :=
  if not_nullish (get values name)
     && negb (bool_decide (typeof (get values name) = TNumber))
  then Throw (OtherError
         ("useSimpleFormState.number(): field '" ++ name ++ "' is not a number"))
  else Return {|
    p_name := name;
    p_value := nullish_or (get values name) (VStr "");
    p_onChange := λ input,
      setFieldValue name
        (if bool_decide (input = "") then VNull else VNum (Number input));
  |}.

Definition checkbox (values : jsobj value)
    (setFieldValue : string → value → M unit) (name : string)
    : outcome checkbox_props :=
  if not_nullish (get values name)
     && negb (bool_decide (typeof (get values name) = TBoolean))
  then Throw (OtherError
         ("useSimpleFormState.checkbox(): field '" ++ name ++ "' is not a boolean"))
  else Return {|
    c_name := name;
    c_checked := truthy (get values name);
    c_onChange := λ checked, setFieldValue name (VBool checked);
  |}.

Definition select (values : jsobj value)
    (setFieldValue : string → value → M unit) (name : string)
    : outcome input_props :=
  Return {|
    p_name := name;
    p_value := nullish_or (get values name) (VStr "");
    p_onChange := λ input, setFieldValue name (VStr input);
  |}.

(** The loop of [validate] over [Object.entries(flattenedErrors)]. The
    keys of [flattenedErrors] are the field names under which zod's
    [flatten] stored a list, by assignment; [__proto__] is never one of
    them, so the assignment of the loop always creates the entry. *)
Definition collect_fieldErrors
    (flattenedErrors : gmap string (option (list string)))
    : gmap string string :=
  forEach (Object_entries flattenedErrors)
    (λ '(key, messages) fieldErrors,
       match messages with
       | Some messages =>
           if 0 <? length messages
           then <[key := join ", " messages]> fieldErrors
           else fieldErrors
       | None => fieldErrors
       end)
    ∅.

Definition validate (values : jsobj value) : M bool :=
  try_catch
    (call (schema_parse values);;
     setErrors ∅;;
     mret true)
    (λ error,
       match error with
       | ZodError flattenedErrors =>
           setErrors (collect_fieldErrors flattenedErrors)
       | OtherError _ => mret tt
       end;;
       mret false).

Definition reset : M unit :=
  setValues (λ _, structuredClone initialValues);;
  setErrors ∅;;
  setTouched (λ _, ∅).

(** The loop of the [dirty] memo over [Object.keys(values)]. *)
Definition dirty_flags (values : jsobj value) : gmap string bool :=
  forEach (Object_keys (props values))
    (λ key result,
       assign key (negb (isEqual (get values key) (get initialValues key)))
         result)
    ∅.

Definition dirty (values : jsobj value) : alloc (jsobj bool) :=
  new_object (dirty_flags values).

Definition isDirty (dirty : jsobj bool) : bool :=
  some Boolean (Object_values (props dirty)).

(** The state of a freshly mounted hook: [useState(options.initialValues)],
    [useState({})], [useState({})], no memo yet. The allocation pointer is
    past the objects of [initialValues]. *)
Definition mount : hook :=
  HookState
    (Store initialValues ∅ ∅ (bound (to_value initialValues)))
    (Memo None None None None None None None None None).

(** One render: the body of [useSimpleFormState]. *)
Definition useSimpleFormState (h : hook) : form * hook :=
  let s := hk_store h in
  let c := hk_memo h in
  let values := values s in
  let '(setFieldValue, c_setFieldValue) :=
    useCallback same0 (m_setFieldValue c) setFieldValue tt in
  let '(text, c_text) :=
    useCallback same1 (m_text c) (text values setFieldValue) values in
  let '(number, c_number) :=
    useCallback same1 (m_number c) (number values setFieldValue) values in
  let '(checkbox, c_checkbox) :=
    useCallback same1 (m_checkbox c) (checkbox values setFieldValue) values in
  let '(select, c_select) :=
    useCallback same1 (m_select c) (select values setFieldValue) values in
  let '(validate, c_validate) :=
    useCallback same1 (m_validate c) (validate values) values in
  let '(reset, c_reset) :=
    useCallback same1 (m_reset c) reset initialValues in
  let '((dirty, c_dirty), n) :=
    useMemo same2 (m_dirty c) (dirty values) (values, initialValues) (next s) in
  let '((isDirty, c_isDirty), n) :=
    useMemo same1 (m_isDirty c) (λ n, (isDirty dirty, n)) dirty n in
  (Form values (errors s) (touched s) dirty isDirty
        text number checkbox select setFieldValue validate reset,
   HookState (Store values (errors s) (touched s) n)
             (Memo c_setFieldValue c_text c_number c_checkbox c_select
                   c_validate c_reset c_dirty c_isDirty)).

(** An event handler of the user interface calls into the rendered form.
    A change event on a binding that threw has no handler to go to. *)
Definition on_change {P I} (props : outcome P) (onChange : P → I → M unit)
    (input : I) : M unit :=
  match props with
  | Return p => onChange p input
  | Throw _ => mret tt
  end.

Definition dispatch (f : form) (e : event) : M unit :=
  match e with
  | SetFieldValue name v => f_setFieldValue f name v
  | Validate => f_validate f;; mret tt
  | Reset => f_reset f
  | TextChange name input => on_change (bind_text f name) p_onChange input
  | NumberChange name input => on_change (bind_number f name) p_onChange input
  | CheckboxChange name checked =>
      on_change (bind_checkbox f name) c_onChange checked
  | SelectChange name input => on_change (bind_select f name) p_onChange input
  end.

(** Render, then let the event run on the rendered form. *)
Definition step (h : hook) (e : event) : hook :=
  let '(f, h') := useSimpleFormState h in
  HookState (dispatch f e (hk_store h')).2 (hk_memo h').

(** The hook after a sequence of events, before its next render, in a
    component that passes the same [options.initialValues] object at
    every render (an object it keeps outside its body or memoises). For
    a component that passes another object at a render, see [run_with]
    below. *)
Definition run (es : list event) : hook := foldl step mount es.

(** What the component sees at that render. *)
Definition view (es : list event) : form := (useSimpleFormState (run es)).1.

(** The cells as that render leaves them. *)
Definition state (es : list event) : store :=
  hk_store (useSimpleFormState (run es)).2.

(** *** The shape of a rendered hook *)

(** The form a render returns, from the cells and the [dirty] object. *)
Definition form_of (s : store) (d : jsobj bool) : form :=
  Form (values s) (errors s) (touched s) d (isDirty d)
       (text (values s) setFieldValue) (number (values s) setFieldValue)
       (checkbox (values s) setFieldValue) (select (values s) setFieldValue)
       setFieldValue (validate (values s)) reset.

(** The memo cells before the first render, and as a render for the
    values object [v] that produced the dirty object [d] leaves them. *)
Definition unrendered : memo :=
  Memo None None None None None None None None None.

Definition rendered (v : jsobj value) (d : jsobj bool) : memo :=
  Memo (Some (tt, setFieldValue))
       (Some (v, text v setFieldValue)) (Some (v, number v setFieldValue))
       (Some (v, checkbox v setFieldValue)) (Some (v, select v setFieldValue))
       (Some (v, validate v)) (Some (initialValues, reset))
       (Some ((v, initialValues), d)) (Some (d, isDirty d)).

(** The invariant of a session: every object the hook holds lies below
    the allocation pointer, and an object kept in a memo cell with the
    identity of [values] is [values] (an identity names one object). *)
Definition coherent (h : hook) : Prop :=
  let s := hk_store h in
  oid (values s) < next s ∧
  bound (to_value initialValues) ≤ next s ∧
  (hk_memo h = unrendered ∨
   ∃ v d, hk_memo h = rendered v d ∧
          oid v < next s ∧ oid d < next s ∧
          props d = dirty_flags v ∧
          (oid v = oid (values s) → v = values s)).

(** The field an event writes through [setFieldValue], if it writes. *)
Definition target (e : event) : option string :=
  match e with
  | SetFieldValue name _ | TextChange name _ | NumberChange name _
  | CheckboxChange name _ | SelectChange name _ => Some name
  | Validate | Reset => None
  end.

End Args.

(** *** Sessions in which the options change

    The hook reads [options.initialValues] at every render, and a
    component may pass another object each time: the README writes the
    object literal in the call, which allocates a new object of the same
    contents at every render. *)
Section Sessions.

Context (schema_parse : jsobj value → outcome value).
Context (Number : string → num).

(** The component has allocated the objects of the options it passes:
    the allocation pointer is past them. *)
Definition receive (options : jsobj value) (h : hook) : hook :=
  let s := hk_store h in
  HookState (Store (values s) (errors s) (touched s)
                   (next s `max` bound (to_value options)))
            (hk_memo h).

(** One step of such a session, from the hook and the options of its
    coming render: the render, an event on the rendered form, and the
    options the component passes at the render after it. *)
Definition step_with (ho : hook * jsobj value)
    (eo : event * jsobj value) : hook * jsobj value :=
  (receive eo.2 (step schema_parse ho.2 Number ho.1 eo.1), eo.2).

(** The session of a component mounted with [options]. *)
Definition run_with (options : jsobj value)
    (steps : list (event * jsobj value)) : hook * jsobj value :=
  foldl step_with (mount options, options) steps.

(** What the component sees at the render that follows. *)
Definition view_with (options : jsobj value)
    (steps : list (event * jsobj value)) : form :=
  (useSimpleFormState schema_parse (run_with options steps).2 Number
     (run_with options steps).1).1.

(** The cells as that render leaves them. *)
Definition state_with (options : jsobj value)
    (steps : list (event * jsobj value)) : store :=
  hk_store (useSimpleFormState schema_parse (run_with options steps).2 Number
              (run_with options steps).1).2.

(** The options objects of a session are [honest] when an identity names
    one object among them: the component passes an object again or passes
    another object, and does not change the contents of one it passed. *)
Definition honest (os : list (jsobj value)) : Prop :=
  ∀ o1 o2, o1 ∈ os → o2 ∈ os → oid o1 = oid o2 → o1 = o2.

(** The invariant of such a session, where [previous] is the options
    object of the last render: the memo cells are those that render left,
    and an object kept with the identity of [values] is [values]. *)
Definition tracked (previous : jsobj value) (h : hook) : Prop :=
  let s := hk_store h in
  oid (values s) < next s ∧
  (hk_memo h = unrendered ∨
   ∃ v d, hk_memo h = rendered schema_parse previous Number v d ∧
          oid v < next s ∧ oid d < next s ∧
          props d = dirty_flags previous v ∧
          (oid v = oid (values s) → v = values s)).

(** The callbacks of a rendered form: each is the source's callback, on
    the [values] or [options.initialValues] object its memo cell keeps. *)
Definition callbacks_shaped (f : form) : Prop :=
  f_setFieldValue f = setFieldValue ∧
  (∃ d, bind_text f = text d setFieldValue) ∧
  (∃ d, bind_number f = number Number d setFieldValue) ∧
  (∃ d, bind_checkbox f = checkbox d setFieldValue) ∧
  (∃ d, bind_select f = select d setFieldValue) ∧
  (∃ d, f_validate f = validate schema_parse d) ∧
  (∃ d, f_reset f = reset d).

(** What every hook of such a session satisfies: a memo cell holds the
    callback built from the dependencies it keeps, and the [values] object
    and the [dirty] object it holds lie below the allocation pointer. *)
Definition shaped (h : hook) : Prop :=
  let c := hk_memo h in
  (∀ d a, m_setFieldValue c = Some (d, a) → a = setFieldValue) ∧
  (∀ d a, m_text c = Some (d, a) → a = text d setFieldValue) ∧
  (∀ d a, m_number c = Some (d, a) → a = number Number d setFieldValue) ∧
  (∀ d a, m_checkbox c = Some (d, a) → a = checkbox d setFieldValue) ∧
  (∀ d a, m_select c = Some (d, a) → a = select d setFieldValue) ∧
  (∀ d a, m_validate c = Some (d, a) → a = validate schema_parse d) ∧
  (∀ d a, m_reset c = Some (d, a) → a = reset d) ∧
  (∀ d r, m_dirty c = Some (d, r) → oid r < next (hk_store h)) ∧
  oid (values (hk_store h)) < next (hk_store h).

End Sessions.
End Hook.

(* ===================================================================== *)
(** ** A concrete form: the user form of the README *)
(* ===================================================================== *)

Module Demo.
Import Js React Hook.

Definition zero : num := S754_zero false.
Definition minus_one : num := S754_finite true 4503599627370496 (-52).

(** [{ name: '', age: 0, isAdmin: false, role: '' }] *)
Definition initialValues : jsobj value :=
  JsObj 0 (<["name" := VStr ""]> (<["age" := VNum zero]>
          (<["isAdmin" := VBool false]> (<["role" := VStr ""]> ∅)))).

Definition is_negative (n : num) : bool :=
  match SFcompare n zero with
  | Some Lt => true
  | _ => false
  end.

(** The issues of one field, added to those found so far. *)
Definition issue (field : string) (messages : list string)
    (found : gmap string (option (list string)))
    : gmap string (option (list string)) :=
  match messages with
  | [] => found
  | _ => <[field := Some messages]> found
  end.

(** A schema in the manner of
    [z.object({ name: z.string().min(1, required), age:
    z.number().min(0, 'Age must be positive'), isAdmin: z.boolean(),
    role: z.string() })]: [parse] returns its input or throws a
    [ZodError] with the messages of every field that fails. *)
Definition parse_user (required : string) (v : jsobj value) : outcome value :=
  let found :=
    issue "name"
      (match props v !! "name" with
       | Some (VStr "") => [required]
       | Some (VStr _) => []
       | _ => ["Expected string"]
       end)
    (issue "age"
      (match props v !! "age" with
       | Some (VNum n) => if is_negative n then ["Age must be positive"] else []
       | _ => ["Expected number"]
       end)
    (issue "isAdmin"
      (match props v !! "isAdmin" with
       | Some (VBool _) => []
       | _ => ["Expected boolean"]
       end)
    (issue "role"
      (match props v !! "role" with
       | Some (VStr _) => []
       | _ => ["Expected string"]
       end) ∅))) in
  if bool_decide (found = ∅) then Return (to_value v) else Throw (ZodError found).

Definition userSchema : jsobj value → outcome value :=
  parse_user "Name is required".

(** The same schema with an empty message for the name rule:
    [z.string().min(1, '')]. *)
Definition silentSchema : jsobj value → outcome value := parse_user "".

(** A schema whose [parse] fails with something that is not a
    [ZodError], as a refinement that throws a [TypeError] does. *)
Definition brokenSchema : jsobj value → outcome value :=
  λ _, Throw (OtherError "TypeError: cannot read properties of undefined").

(** A schema that reports two violated rules for one field. *)
Definition strictSchema : jsobj value → outcome value :=
  λ v, match props v !! "name" with
       | Some (VStr "") =>
           Throw (ZodError {["name" := Some ["Required"; "Too short"]]})
       | _ => Return (to_value v)
       end.

(** The value of a string of decimal digits, most significant first. *)
Fixpoint digits (s : string) (acc : N) : option N :=
  match s with
  | EmptyString => Some acc
  | String c s' =>
      let d := Ascii.N_of_ascii c in
      if (48 <=? d)%N && (d <=? 57)%N
      then digits s' (10 * acc + (d - 48))%N
      else None
  end.

(** A stand-in for the builtin [Number], exact on the strings the
    examples use: the empty string converts to [0], a string of decimal
    digits to the nearest binary64, and a string of letters (as ["abc"])
    is no numeric literal and converts to [NaN]. *)
Definition Number (s : string) : num :=
  match s with
  | EmptyString => zero
  | _ => match digits s 0 with
         | Some n => binary_normalize 53 1024 (Z.of_N n) 0 false
         | None => NaN
         end
  end.

(** A form that also holds a nested object and an array. *)
Definition nestedValues : jsobj value :=
  JsObj 0 (<["address" := VObj 1 {["city" := VStr "Oslo"]}]>
          (<["tags" := VArr 2 [VStr "a"; VNum NaN]]> ∅)).

(** The props of the number binding of [age]. *)
Definition age_props : input_props :=
  {| p_name := "age";
     p_value := VNum zero;
     p_onChange := λ input,
       setFieldValue "age"
         (if bool_decide (input = "") then VNull else VNum (Number input)) |}.

(** The props of the text binding of [name]. *)
Definition name_props : input_props :=
  {| p_name := "name";
     p_value := VStr "";
     p_onChange := λ input, setFieldValue "name" (VStr input) |}.

(** The forms of the examples: what a render shows after the events
    [es], and the cells that render leaves. *)
Definition user_form (es : list event) : form :=
  view userSchema initialValues Number es.
Definition user_cells (es : list event) : store :=
  state userSchema initialValues Number es.
Definition strict_form (es : list event) : form :=
  view strictSchema initialValues Number es.
Definition strict_cells (es : list event) : store :=
  state strictSchema initialValues Number es.
Definition silent_form (es : list event) : form :=
  view silentSchema initialValues Number es.
Definition broken_form (es : list event) : form :=
  view brokenSchema initialValues Number es.
Definition broken_cells (es : list event) : store :=
  state brokenSchema initialValues Number es.
Definition nested_form (es : list event) : form :=
  view userSchema nestedValues Number es.

(** A form with free field names, in the manner of
    [useSimpleFormState(z.record(z.any()), { initialValues: {} })]: every
    string is a field name, and [parse] returns its input. *)
Definition recordSchema : jsobj value → outcome value :=
  λ v, Return (to_value v).
Definition emptyValues : jsobj value := JsObj 0 ∅.
Definition record_form (es : list event) : form :=
  view recordSchema emptyValues Number es.

(** Initial values that hold a field [__proto__], as
    [JSON.parse('{"__proto__": "x"}')] builds them. *)
Definition protoValues : jsobj value := JsObj 0 {["__proto__" := VStr "x"]}.

(** The object literal of the README evaluated once more, at a later
    render: the same contents in another object. *)
Definition initialValues_again : jsobj value :=
  JsObj 100 (props initialValues).

(** Options with another initial name, in another object. *)
Definition otherValues : jsobj value :=
  JsObj 200 (<["name" := VStr "Ada"]> (props initialValues)).

(** The form of a component that passes an options object of its choice
    at each render. *)
Definition user_form_with (steps : list (event * jsobj value)) : form :=
  view_with userSchema Number initialValues steps.

End Demo.

(* ===================================================================== *)
(** ** Facts about values *)
(* ===================================================================== *)

Module JsFacts.
Import Js.

Lemma nodes_prop (m : gmap string value) k x :
  m !! k = Some x →
  nodes x ≤ map_fold (λ _ x n, nodes x + n) 0 m.
Proof.
  induction m as [|k' x' m Hk' Hfold IH] using map_first_key_ind.
  - by rewrite lookup_empty.
  - rewrite map_fold_insert_first_key by done.
    destruct (decide (k' = k)) as [->|Hne].
    + rewrite lookup_insert_eq. intros [= ->]. lia.
    + rewrite lookup_insert_ne by done. intros Hk. specialize (IH Hk). lia.
Qed.

Lemma nodes_item (xs : list value) x :
  x ∈ xs → nodes x ≤ foldr (λ x n, nodes x + n) 0 xs.
Proof.
  induction 1 as [x xs|x y xs _ IH]; simpl; lia.
Qed.

Lemma value_ind (P : value → Prop) :
  P VUndefined → P VNull → (∀ b, P (VBool b)) → (∀ n, P (VNum n)) →
  (∀ s, P (VStr s)) →
  (∀ l xs, Forall P xs → P (VArr l xs)) →
  (∀ l m, map_Forall (λ _, P) m → P (VObj l m)) →
  ∀ v, P v.
Proof.
  intros Hu Hn Hb Hnum Hs Harr Hobj v.
  remember (nodes v) as n eqn:Hsize.
  revert v Hsize. induction n as [n IH] using lt_wf_ind. intros v ->.
  destruct v as [| | | | |l xs|l m]; auto.
  - apply Harr, Forall_forall. intros x Hx.
    apply (IH (nodes x)); [|done]. simpl. pose proof (nodes_item _ _ Hx). lia.
  - apply Hobj. intros k x Hk.
    apply (IH (nodes x)); [|done]. simpl. pose proof (nodes_prop _ _ _ Hk). lia.
Qed.


(** A fold that takes the conjunction of a test over the entries. *)
Lemma map_fold_all {A} (P : string → A → bool) (m : gmap string A) :
  map_fold (λ k x ok, ok && P k x) true m = true ↔
  ∀ k x, m !! k = Some x → P k x = true.
Proof.
  induction m as [|k x m Hk Hfst IH] using map_first_key_ind.
  - rewrite map_fold_empty. split; [|done]. intros _ k x. by rewrite lookup_empty.
  - rewrite map_fold_insert_first_key by done.
    rewrite andb_true_iff, IH. split.
    + intros [Hm Hx] k' x'. destruct (decide (k = k')) as [->|Hne].
      * rewrite lookup_insert_eq. by intros [= ->].
      * rewrite lookup_insert_ne by done. apply Hm.
    + intros H. split.
      * intros k' x' Hk'. apply H. rewrite lookup_insert_ne; [done|].
        intros ->. congruence.
      * apply H, lookup_insert_eq.
Qed.

Lemma bound_prop (m : gmap string value) k x :
  m !! k = Some x →
  bound x ≤ map_fold (λ _ x n, bound x `max` n) 0 m.
Proof.
  induction m as [|k' x' m Hk' Hfst IH] using map_first_key_ind.
  - by rewrite lookup_empty.
  - rewrite map_fold_insert_first_key by done.
    destruct (decide (k' = k)) as [->|Hne].
    + rewrite lookup_insert_eq. intros [= ->]. lia.
    + rewrite lookup_insert_ne by done. intros Hk. specialize (IH Hk). lia.
Qed.

Lemma bound_item (xs : list value) x :
  x ∈ xs → bound x ≤ foldr (λ x n, bound x `max` n) 0 xs.
Proof.
  induction 1 as [x xs|x y xs _ IH]; simpl; lia.
Qed.

(** Every object of a value lies below its bound. *)
Lemma reaches_bound l v : reaches l v → l < bound v.
Proof.
  induction 1 as [xs|l' xs x Hx _ IH|m|l' m k x Hk _ IH]; simpl.
  - lia.
  - pose proof (bound_item _ _ Hx). lia.
  - lia.
  - pose proof (bound_prop _ _ _ Hk). lia.
Qed.

(** The objects of a renamed value are the renamed objects. *)
Lemma reaches_relabel f l v :
  reaches l (relabel f v) → ∃ l0, l = f l0 ∧ reaches l0 v.
Proof.
  revert l. induction v as [| | | | |l' xs IH|l' m IH] using value_ind;
    intros l H; simpl in H; try by inversion H.
  - inversion H as [|? ? x Hx Hr| |]; subst.
    + exists l'. split; [done|constructor].
    + apply list_elem_of_fmap in Hx as (y & -> & Hy).
      rewrite Forall_forall in IH.
      destruct (IH y Hy l Hr) as (l0 & -> & Hl0).
      exists l0. split; [done|]. by eapply reaches_item.
  - inversion H as [| | |? ? k x Hk Hr]; subst.
    + exists l'. split; [done|constructor].
    + rewrite lookup_fmap in Hk.
      destruct (m !! k) as [y|] eqn:Hy; simplify_eq/=.
      destruct (IH k y Hy l Hr) as (l0 & -> & Hl0).
      exists l0. split; [done|]. by eapply reaches_prop.
Qed.

(** A mutation of an object that a value does not reach leaves the value
    as it is. *)
Lemma update_at_unreached l f v : ¬ reaches l v → update_at l f v = v.
Proof.
  induction v as [| | | | |l' xs IH|l' m IH] using value_ind;
    intros Hl; simpl; try done.
  - destruct (decide (l' = l)) as [->|_]; [destruct Hl; constructor|].
    f_equal. rewrite <- (list_fmap_id xs) at 2.
    apply list_fmap_ext. intros i x Hx.
    rewrite Forall_forall in IH. apply IH.
    + by eapply list_elem_of_lookup_2.
    + intros Hr. apply Hl. eapply reaches_item; [|done].
      by eapply list_elem_of_lookup_2.
  - destruct (decide (l' = l)) as [->|_]; [destruct Hl; constructor|].
    f_equal. apply map_eq. intros k. rewrite lookup_fmap.
    destruct (m !! k) as [x|] eqn:Hk; simpl; [|done].
    f_equal. apply (IH k x Hk). intros Hr. apply Hl. by eapply reaches_prop.
Qed.

Lemma relabel_relabel g f v : relabel g (relabel f v) = relabel (g ∘ f) v.
Proof.
  induction v as [| | | | |l xs IH|l m IH] using value_ind; simpl; try done.
  - f_equal. rewrite <- list_fmap_compose.
    apply list_fmap_ext. intros i x Hx.
    rewrite Forall_forall in IH. apply IH. by eapply list_elem_of_lookup_2.
  - f_equal. rewrite <- map_fmap_compose.
    apply map_eq. intros k. rewrite !lookup_fmap.
    destruct (m !! k) as [x|] eqn:Hk; simpl; [|done].
    f_equal. by apply (IH k x).
Qed.

Lemma erase_relabel f v : erase (relabel f v) = erase v.
Proof. unfold erase. by rewrite relabel_relabel. Qed.

Lemma equal_unfold a b :
  equal a b =
  if strict_eq a b then true else
  match a, b with
  | VArr _ xs, VArr _ ys =>
      (fix elements (xs ys : list value) : bool :=
         match xs, ys with
         | [], [] => true
         | x :: xs', y :: ys' => equal x y && elements xs' ys'
         | _, _ => false
         end) xs ys
  | VArr _ _, VObj _ _ | VObj _ _, VArr _ _ => false
  | VObj _ pa, VObj _ pb =>
      bool_decide (size pa = size pb) &&
      map_fold (λ key va ok,
                  ok && match pb !! key with
                        | Some vb => equal va vb
                        | None => false
                        end) true pa
  | _, _ => negb (strict_eq a a) && negb (strict_eq b b)
  end.
Proof. by destruct a. Qed.

(** Values that differ in the identities of their objects only are
    deep-equal: [equal] is a structural equality and not a comparison of
    references. *)
Lemma equal_erase a b : erase a = erase b → equal a b = true.
Proof.
  revert b. induction a as [| |c|n|s|l xs IH|l m IH] using value_ind;
    intros b Hab; rewrite equal_unfold;
    destruct (strict_eq _ b) eqn:Hstrict; try done;
    destruct b as [| | | | |l' ys|l' m']; simplify_eq/=; try done.
  - simpl in Hstrict. by rewrite bool_decide_true in Hstrict.
  - (* numbers differ from themselves: both are NaN *)
    simpl in Hstrict. by rewrite Hstrict.
  - simpl in Hstrict. by rewrite bool_decide_true in Hstrict.
  - clear Hstrict. revert ys Hab. induction xs as [|x xs IHxs]; intros [|y ys] Hab;
      simplify_eq/=; [done|].
    apply Forall_cons in IH as [Hx Hxs].
    rewrite (Hx y) by done. simpl. by apply IHxs.
  - apply andb_true_iff. split.
    + apply bool_decide_eq_true.
      rewrite <- (map_size_fmap (relabel (λ _, 0)) m).
      rewrite <- (map_size_fmap (relabel (λ _, 0)) m'). by rewrite Hab.
    + apply map_fold_all. intros k x Hk.
      assert ((relabel (λ _, 0) <$> m') !! k = Some (erase x)) as Hk'.
      { rewrite <- Hab, lookup_fmap, Hk. done. }
      rewrite lookup_fmap in Hk'.
      destruct (m' !! k) as [y|]; simplify_eq/=.
      by apply (IH k x).
Qed.

(** A clone is deep-equal to its source. *)
Lemma equal_relabel f v : equal (relabel f v) v = true.
Proof. apply equal_erase, erase_relabel. Qed.

(** [===] on numbers is equality up to the sign of zero, and [NaN] is the
    one number that is not [===] to itself. *)
Lemma SFeqb_contents x y :
  SFeqb x y = true → contents (VNum x) = contents (VNum y).
Proof.
  unfold SFeqb, SFcompare.
  destruct x as [[]|[]| |[] m e], y as [[]|[]| |[] m' e']; try done;
    (destruct (Z.compare e e') eqn:He; try done;
     apply Z.compare_eq in He as ->;
     change (Pos.compare_cont Eq m m') with (m ?= m')%positive;
     destruct (m ?= m')%positive eqn:Hm; try done;
     by apply Pos.compare_eq in Hm as ->).
Qed.

Lemma SFeqb_irrefl x : SFeqb x x = false → x = S754_nan.
Proof.
  unfold SFeqb, SFcompare. destruct x as [[]|[]| |[] m e]; try done;
    rewrite Z.compare_refl;
    change (Pos.compare_cont Eq m m) with (m ?= m)%positive;
    by rewrite Pos.compare_refl.
Qed.

(** A value that is not [===] to itself is [NaN]. *)
Lemma strict_eq_irrefl a : strict_eq a a = false → a = VNum NaN.
Proof.
  destruct a; simpl; try done.
  - by rewrite bool_decide_true.
  - intros H. by rewrite (SFeqb_irrefl _ H).
  - by rewrite bool_decide_true.
  - by rewrite bool_decide_true.
  - by rewrite bool_decide_true.
Qed.

(** Values with the same contents are deep-equal, whatever the
    identities of their objects. *)
Lemma equal_contents a b : contents a = contents b → equal a b = true.
Proof.
  revert b. induction a as [| |c|n|s|l xs IH|l m IH] using value_ind;
    intros b Hab; rewrite equal_unfold;
    destruct (strict_eq _ b) eqn:Hstrict; try done.
  all: destruct b as [| |c'|n'|s'|l' ys|l' m'];
    try (simpl in Hab; done);
    try (simpl in Hab; by destruct n' as [[]|[]| |[] ? ?]);
    try (simpl in Hab; by destruct n as [[]|[]| |[] ? ?]).
  - simpl in Hab, Hstrict. simplify_eq. by rewrite bool_decide_true in Hstrict.
  - simpl in Hstrict.
    assert (n = n') as <-.
    { destruct n as [[]|[]| |[] ? ?], n' as [[]|[]| |[] ? ?];
        simpl in Hab; simplify_eq; done. }
    simpl. by rewrite Hstrict.
  - simpl in Hab, Hstrict. simplify_eq. by rewrite bool_decide_true in Hstrict.
  - simpl in Hab. injection Hab as Hab. clear Hstrict. revert ys Hab.
    induction xs as [|x xs IHxs]; intros [|y ys] Hab; simplify_eq/=; [done|].
    apply Forall_cons in IH as [Hx Hxs].
    rewrite (Hx y) by done. simpl. by apply IHxs.
  - simpl in Hab. injection Hab as Hab.
    apply andb_true_iff. split.
    + apply bool_decide_eq_true.
      rewrite <- (map_size_fmap contents m).
      rewrite <- (map_size_fmap contents m'). by rewrite Hab.
    + apply map_fold_all. intros k x Hk.
      assert ((contents <$> m') !! k = Some (contents x)) as Hk'.
      { rewrite <- Hab, lookup_fmap, Hk. done. }
      rewrite lookup_fmap in Hk'.
      destruct (m' !! k) as [y|]; simplify_eq/=.
      by apply (IH k x).
Qed.

(** Deep-equal values that share no object have the same contents: for
    them [equal] is the equality of contents. *)
Lemma equal_sound a b :
  (∀ l, reaches l a → ¬ reaches l b) →
  equal a b = true → contents a = contents b.
Proof.
  revert b. induction a as [| |c|n|s|l xs IH|l m IH] using value_ind;
    intros b Hdisjoint; rewrite equal_unfold;
    destruct (strict_eq _ b) eqn:Hstrict.
  all: destruct b as [| |c'|n'|s'|l' ys|l' m']; try done.
  all: try (intros Hnan; apply andb_true_iff in Hnan as [Ha Hb];
            apply negb_true_iff, strict_eq_irrefl in Ha;
            apply negb_true_iff, strict_eq_irrefl in Hb; by simplify_eq).
  - simpl in Hstrict. by apply bool_decide_eq_true in Hstrict as ->.
  - intros _. by apply SFeqb_contents.
  - simpl in Hstrict. by apply bool_decide_eq_true in Hstrict as ->.
  - simpl in Hstrict. apply bool_decide_eq_true in Hstrict as <-.
    destruct (Hdisjoint l); constructor.
  - intros Helements. simpl. f_equal.
    assert (∀ x, x ∈ xs → ∀ y, y ∈ ys →
            ∀ l0, reaches l0 x → ¬ reaches l0 y) as Hitems.
    { intros x Hx y Hy l0 Hl0 Hl0'. apply (Hdisjoint l0).
      - by eapply reaches_item.
      - by eapply reaches_item. }
    clear Hdisjoint Hstrict. revert ys Helements Hitems.
    induction xs as [|x xs IHxs]; intros [|y ys] Helements Hitems;
      simplify_eq/=; try done.
    apply andb_true_iff in Helements as [Hxy Hrest].
    apply Forall_cons in IH as [Hx Hxs].
    f_equal.
    + apply Hx; [|done]. apply Hitems; left.
    + apply IHxs; [done|done|].
      intros x' Hx' y' Hy'. apply Hitems; by right.
  - simpl in Hstrict. apply bool_decide_eq_true in Hstrict as <-.
    destruct (Hdisjoint l); constructor.
  - intros Hobj. apply andb_true_iff in Hobj as [Hsize Hall].
    apply bool_decide_eq_true in Hsize.
    rewrite map_fold_all in Hall.
    assert (dom m = dom m') as Hdom.
    { apply set_subseteq_size_eq.
      - intros k Hk. apply elem_of_dom in Hk as [x Hx].
        specialize (Hall k x Hx). apply elem_of_dom.
        destruct (m' !! k); [by eexists|done].
      - by rewrite !size_dom, Hsize. }
    simpl. f_equal. apply map_eq. intros k. rewrite !lookup_fmap.
    destruct (m !! k) as [x|] eqn:Hx; simpl.
    + specialize (Hall k x Hx).
      destruct (m' !! k) as [y|] eqn:Hy; [|done]. simpl. f_equal.
      apply (IH k x Hx); [|done].
      intros l0 Hl0 Hl0'. apply (Hdisjoint l0).
      * by eapply reaches_prop.
      * by eapply reaches_prop.
    + assert (m' !! k = None) as ->; [|done].
      apply not_elem_of_dom. rewrite <- Hdom. by apply not_elem_of_dom.
Qed.

(** Only [undefined] is deep-equal to [undefined]. *)
Lemma equal_undefined v : equal v VUndefined = strict_eq v VUndefined.
Proof.
  destruct v as [| |c|n|s|l xs|l m]; try done;
    simpl; by rewrite andb_false_r.
Qed.

(** A renaming of identities keeps the contents. *)
Lemma contents_relabel f v : contents (relabel f v) = contents v.
Proof.
  induction v as [| | |n| |l xs IH|l m IH] using value_ind; simpl; try done.
  - f_equal. rewrite <- list_fmap_compose.
    apply list_fmap_ext. intros i x Hx.
    rewrite Forall_forall in IH. apply IH. by eapply list_elem_of_lookup_2.
  - f_equal. rewrite <- map_fmap_compose.
    apply map_eq. intros k. rewrite !lookup_fmap.
    destruct (m !! k) as [x|] eqn:Hk; simpl; [|done].
    f_equal. by apply (IH k x).
Qed.

End JsFacts.

(* ===================================================================== *)
(** ** Facts about the hook: rendering and the session invariant *)
(* ===================================================================== *)

Module HookFacts.
Import Js React Hook JsFacts.

Section Args.

Context (schema_parse : jsobj value → outcome value).
Context (initialValues : jsobj value).
Context (Number : string → num).

#[local] Abbreviation setFieldValue := Hook.setFieldValue.
#[local] Abbreviation validate := (Hook.validate schema_parse).
#[local] Abbreviation reset := (Hook.reset initialValues).
#[local] Abbreviation dirty_flags := (Hook.dirty_flags initialValues).
#[local] Abbreviation form_of := (Hook.form_of schema_parse initialValues Number).
#[local] Abbreviation rendered := (Hook.rendered schema_parse initialValues Number).
#[local] Abbreviation coherent := (Hook.coherent schema_parse initialValues Number).
#[local] Abbreviation useSimpleFormState :=
  (Hook.useSimpleFormState schema_parse initialValues Number).
#[local] Abbreviation step := (Hook.step schema_parse initialValues Number).
#[local] Abbreviation run := (Hook.run schema_parse initialValues Number).
#[local] Abbreviation view := (Hook.view schema_parse initialValues Number).
#[local] Abbreviation state := (Hook.state schema_parse initialValues Number).

(** *** The loops over keys and entries *)

Lemma elem_of_Object_keys {A} (m : gmap string A) k :
  k ∈ Object_keys m ↔ is_Some (m !! k).
Proof.
  unfold Object_keys. rewrite list_elem_of_fmap. split.
  - intros ([k' x] & -> & Hx). apply elem_of_map_to_list in Hx. by exists x.
  - intros [x Hx]. exists (k, x). split; [done|]. by apply elem_of_map_to_list.
Qed.

Lemma forEach_assign_lookup {B} (g : string → B) keys
    (acc : gmap string B) k :
  forEach keys (λ key result, assign key (g key) result) acc !! k =
  if bool_decide (k = "__proto__") then acc !! k
  else if decide (k ∈ keys) then Some (g k) else acc !! k.
Proof.
  unfold forEach. revert acc.
  induction keys as [|key keys IH]; intros acc; cbn [foldl].
  - rewrite decide_False by apply not_elem_of_nil. by case_bool_decide.
  - rewrite IH. unfold assign.
    destruct (bool_decide (k = "__proto__")) eqn:Hproto.
    + apply bool_decide_eq_true in Hproto as ->.
      case_bool_decide; [done|]. by rewrite lookup_insert_ne.
    + apply bool_decide_eq_false in Hproto.
      destruct (decide (k ∈ keys)) as [Hin|Hout].
      * rewrite decide_True; [done|]. by right.
      * destruct (decide (key = k)) as [->|Hne].
        -- rewrite decide_True by left.
           rewrite bool_decide_false by done. by rewrite lookup_insert_eq.
        -- rewrite decide_False.
           ++ case_bool_decide; [done|]. by rewrite lookup_insert_ne.
           ++ rewrite elem_of_cons. intros [Heq|Hin]; congruence.
Qed.

(** [dirty] has one flag per key of [values] other than [__proto__]:
    whether the value differs from what [initialValues] reads under that
    key. *)
Lemma dirty_flags_lookup values k :
  dirty_flags values !! k =
  if bool_decide (k = "__proto__") then None
  else (λ v, negb (isEqual (Data v) (get initialValues k)))
         <$> props values !! k.
Proof.
  unfold Hook.dirty_flags. rewrite forEach_assign_lookup, lookup_empty.
  case_bool_decide; [done|].
  destruct (decide _) as [Hin|Hout].
  - apply elem_of_Object_keys in Hin as [v Hv].
    unfold get at 1. by rewrite Hv.
  - rewrite elem_of_Object_keys in Hout.
    destruct (props values !! k) eqn:Hk; [|done]. destruct Hout. by eexists.
Qed.

Lemma isDirty_true (d : jsobj bool) :
  isDirty d = true ↔ ∃ k, props d !! k = Some true.
Proof.
  unfold isDirty, some, Object_values, Boolean.
  rewrite existsb_exists. split.
  - intros (b & Hb & ->). apply list_elem_of_In, list_elem_of_fmap in Hb.
    destruct Hb as ([k b] & Hb & Hin). simpl in Hb. subst b.
    exists k. by apply elem_of_map_to_list.
  - intros (k & Hk). exists true. split; [|done].
    apply list_elem_of_In, list_elem_of_fmap. exists (k, true).
    split; [done|]. by apply elem_of_map_to_list.
Qed.

(** What the loop of [validate] keeps of the entries [l] of an object,
    for one key. *)
Lemma forEach_entries_lookup (l : list (string * option (list string)))
    (acc : gmap string string) k :
  NoDup l.*1 →
  forEach l
    (λ '(key, messages) fieldErrors,
       match messages with
       | Some messages =>
           if 0 <? length messages
           then <[key := join ", " messages]> fieldErrors
           else fieldErrors
       | None => fieldErrors
       end) acc !! k =
  match list_find (λ x, x.1 = k) l with
  | Some (_, (_, Some messages)) =>
      if 0 <? length messages then Some (join ", " messages) else acc !! k
  | _ => acc !! k
  end.
Proof.
  unfold forEach. revert acc.
  induction l as [|[key x] l IH]; intros acc Hnodup; simpl; [done|].
  rewrite fmap_cons in Hnodup. apply NoDup_cons in Hnodup as [Hkey Hnodup].
  rewrite IH by done. simpl in Hkey.
  destruct (decide (key = k)) as [->|Hne]; simpl.
  - assert (list_find (λ x : string * option (list string), x.1 = k) l = None)
      as ->.
    { apply list_find_None, Forall_forall. intros [k' y] Hy Hk'.
      simpl in Hk'. subst k'. apply Hkey, list_elem_of_fmap. by exists (k, y). }
    simpl. destruct x as [messages|]; [|done].
    destruct (0 <? length messages); [|done]. by rewrite lookup_insert_eq.
  - assert (acc !! k =
            match x with
            | Some messages =>
                if 0 <? length messages
                then <[key := join ", " messages]> acc else acc
            | None => acc
            end !! k) as <-.
    { destruct x as [messages|]; [|done].
      destruct (0 <? length messages); [|done]. by rewrite lookup_insert_ne. }
    by destruct (list_find _ l) as [[i [k' [messages|]]]|].
Qed.

Lemma collect_fieldErrors_lookup flattenedErrors k :
  collect_fieldErrors flattenedErrors !! k =
  match flattenedErrors !! k with
  | Some (Some messages) =>
      if 0 <? length messages then Some (join ", " messages) else None
  | _ => None
  end.
Proof.
  unfold collect_fieldErrors, Object_entries.
  rewrite forEach_entries_lookup by apply NoDup_fst_map_to_list.
  rewrite lookup_empty.
  destruct (list_find _ _) as [[i [k' x]]|] eqn:Hfind.
  - apply list_find_Some in Hfind as (Hi & Hk & _). simpl in Hk. subst k'.
    apply list_elem_of_lookup_2, elem_of_map_to_list in Hi. rewrite Hi.
    by destruct x.
  - destruct (flattenedErrors !! k) as [x|] eqn:Hk; [|done].
    apply elem_of_map_to_list in Hk.
    rewrite list_find_None, Forall_forall in Hfind.
    by destruct (Hfind _ Hk).
Qed.

(** A joined list of messages is empty only when there is no message or
    one empty message. *)
Lemma join_empty messages :
  join ", " messages = "" → messages = [] ∨ messages = [""].
Proof.
  destruct messages as [|m [|m' messages]]; simpl; [by left| |].
  - intros ->. by right.
  - by destruct m.
Qed.

(** *** What each callback does to the cells *)

Lemma setFieldValue_run name v s :
  setFieldValue name v s =
  (Return tt,
   Store (JsObj (next s) (<[name := v]> (props (values s))))
         (errors s) (<[name := true]> (touched s)) (S (next s))).
Proof. reflexivity. Qed.

Lemma reset_run s :
  reset s =
  (Return tt,
   Store (relabel_obj (λ l, next s + l) initialValues) ∅ ∅
         (next s + bound (to_value initialValues))).
Proof. reflexivity. Qed.

Lemma validate_run v s :
  validate v s =
  match schema_parse v with
  | Return _ => (Return true, Store (values s) ∅ (touched s) (next s))
  | Throw (ZodError flattenedErrors) =>
      (Return false,
       Store (values s) (collect_fieldErrors flattenedErrors) (touched s) (next s))
  | Throw (OtherError _) => (Return false, s)
  end.
Proof.
  unfold Hook.validate, try_catch, call. simpl.
  destruct (schema_parse v) as [parsed|[flattenedErrors|message]]; reflexivity.
Qed.

(** *** One render *)

Lemma render_unrendered s :
  useSimpleFormState (HookState s unrendered) =
  (form_of s (JsObj (next s) (dirty_flags (values s))),
   HookState (Store (values s) (errors s) (touched s) (S (next s)))
             (rendered (values s) (JsObj (next s) (dirty_flags (values s))))).
Proof. reflexivity. Qed.

Lemma render_rendered s v d :
  oid d < next s →
  props d = dirty_flags v →
  (oid v = oid (values s) → v = values s) →
  ∃ d' n,
    useSimpleFormState (HookState s (rendered v d)) =
      (form_of s d',
       HookState (Store (values s) (errors s) (touched s) n)
                 (rendered (values s) d')) ∧
    props d' = dirty_flags (values s) ∧ oid d' < n ∧ next s ≤ n.
Proof.
  intros Hd Hflags Hsame.
  destruct (decide (oid v = oid (values s))) as [Heq|Hne].
  - specialize (Hsame Heq). subst v. exists d, (next s).
    split; [|done].
    unfold Hook.useSimpleFormState, Hook.rendered, useCallback, useMemo,
      same0, same1, same2, Object_is. simpl.
    rewrite !bool_decide_true by done. simpl.
    rewrite bool_decide_true by done. reflexivity.
  - exists (JsObj (next s) (dirty_flags (values s))), (S (next s)).
    split; [|simpl; split; [done|lia]].
    unfold Hook.useSimpleFormState, Hook.rendered, useCallback, useMemo,
      same0, same1, same2, Object_is. simpl.
    rewrite !(bool_decide_false (oid v = _)) by done. simpl.
    rewrite (bool_decide_false (oid d = _)) by lia.
    rewrite bool_decide_true by done. reflexivity.
Qed.

(** In a coherent hook the memo cells are transparent: a render returns
    the form computed from the current cells. *)
Lemma render_spec h :
  coherent h →
  ∃ d n,
    useSimpleFormState h =
      (form_of (hk_store h) d,
       HookState (Store (values (hk_store h)) (errors (hk_store h))
                        (touched (hk_store h)) n)
                 (rendered (values (hk_store h)) d)) ∧
    props d = dirty_flags (values (hk_store h)) ∧
    oid d < n ∧ next (hk_store h) ≤ n.
Proof.
  destruct h as [s c]. unfold Hook.coherent. simpl.
  intros (Hv & Hinit & [->|(v & d & -> & Hv0 & Hd & Hflags & Hsame)]).
  - eexists _, _. split; [apply render_unrendered|]. simpl. split; [done|lia].
  - by apply render_rendered.
Qed.

(** *** One event *)

(** What an event does to the cells [s1], on the form rendered from [s]:
    [validate] and [reset] run as such; any other event calls
    [setFieldValue] on its target, or does nothing when its binding
    threw. *)
Lemma dispatch_effect s d e s1 :
  match e with
  | Validate => (dispatch (form_of s d) e s1).2 = (validate (values s) s1).2
  | Reset => (dispatch (form_of s d) e s1).2 = (reset s1).2
  | _ =>
      (dispatch (form_of s d) e s1).2 = s1 ∨
      ∃ name v, target e = Some name ∧
                (dispatch (form_of s d) e s1).2 = (setFieldValue name v s1).2
  end.
Proof.
  destruct e as [name v| | |name input|name input|name checked|name input];
    simpl.
  - right. by exists name, v.
  - unfold mbind, M_bind. by destruct (validate (values s) s1) as [[b|err] s'].
  - done.
  - unfold text. destruct (_ && _); simpl; [by left|right]. by eexists _, _.
  - unfold number. destruct (_ && _); simpl; [by left|right]. by eexists _, _.
  - unfold checkbox. destruct (_ && _); simpl; [by left|right]. by eexists _, _.
  - right. by eexists _, _.
Qed.

(** An event only allocates, and it leaves the object [values] in place
    or replaces it by a new one. *)
Lemma dispatch_alloc s d e s1 :
  oid (values s1) < next s1 →
  let s' := (dispatch (form_of s d) e s1).2 in
  next s1 ≤ next s' ∧ oid (values s') < next s' ∧
  (values s' = values s1 ∨ next s1 ≤ oid (values s')).
Proof.
  intros Hv. pose proof (dispatch_effect s d e s1) as H. simpl.
  assert (∀ name v,
    let s' := (setFieldValue name v s1).2 in
    next s1 ≤ next s' ∧ oid (values s') < next s' ∧
    (values s' = values s1 ∨ next s1 ≤ oid (values s'))) as Hset.
  { intros name v. rewrite setFieldValue_run. simpl. lia. }
  destruct e; try (destruct H as [->|(name' & v' & _ & ->)]; [|by apply Hset];
                   split; [lia|split; [done|by left]]).
  - rewrite H, validate_run.
    destruct (schema_parse _) as [?|[?|?]]; simpl;
      (split; [lia|split; [done|by left]]).
  - rewrite H, reset_run. simpl.
    pose proof (reaches_bound (oid initialValues) (to_value initialValues)
                  (reaches_obj _ _)).
    lia.
Qed.

Lemma step_spec h e :
  coherent h →
  ∃ d n,
    props d = dirty_flags (values (hk_store h)) ∧
    oid d < n ∧ next (hk_store h) ≤ n ∧
    (useSimpleFormState h).1 = form_of (hk_store h) d ∧
    hk_store (useSimpleFormState h).2 =
      Store (values (hk_store h)) (errors (hk_store h))
            (touched (hk_store h)) n ∧
    step h e =
      HookState
        (dispatch (form_of (hk_store h) d) e
           (Store (values (hk_store h)) (errors (hk_store h))
                  (touched (hk_store h)) n)).2
        (rendered (values (hk_store h)) d).
Proof.
  intros Hh. destruct (render_spec h Hh) as (d & n & Hrender & Hd & Hdn & Hn).
  exists d, n. unfold Hook.step. rewrite Hrender. done.
Qed.

Lemma coherent_mount : coherent (mount initialValues).
Proof.
  unfold Hook.coherent, mount. simpl. split; [lia|]. split; [done|by left].
Qed.

Lemma coherent_step h e : coherent h → coherent (step h e).
Proof.
  intros Hh.
  destruct (step_spec h e Hh) as (d & n & Hd & Hdn & Hn & _ & _ & ->).
  destruct Hh as (Hv & Hinit & _).
  set (s1 := Store _ _ _ n).
  destruct (dispatch_alloc (hk_store h) d e s1) as (Hnext & Hv' & Hsame).
  { simpl. lia. }
  unfold Hook.coherent. simpl in *.
  split; [done|]. split; [lia|]. right.
  exists (values (hk_store h)), d.
  split; [done|]. split; [lia|]. split; [lia|]. split; [done|].
  intros Hid. destruct Hsame as [->|Hfresh]; [done|]. lia.
Qed.

Lemma run_snoc es e : run (es ++ [e]) = step (run es) e.
Proof. unfold Hook.run. by rewrite foldl_app. Qed.

(** Every hook of a session is coherent. *)
Lemma coherent_run es : coherent (run es).
Proof.
  induction es as [|e es IH] using rev_ind.
  - apply coherent_mount.
  - rewrite run_snoc. by apply coherent_step.
Qed.

(** *** The session, one render at a time *)

(** The form of a render is the one computed from the cells: what the
    memo cells return is never out of date. *)
Lemma view_spec es :
  ∃ d, view es = form_of (state es) d ∧
       props d = dirty_flags (values (state es)).
Proof.
  unfold Hook.view, Hook.state.
  destruct (render_spec _ (coherent_run es)) as (d & n & -> & Hd & _).
  by exists d.
Qed.

(** The cells after one more event. *)
Lemma state_snoc es e :
  values (state (es ++ [e])) = values (dispatch (view es) e (state es)).2 ∧
  errors (state (es ++ [e])) = errors (dispatch (view es) e (state es)).2 ∧
  touched (state (es ++ [e])) = touched (dispatch (view es) e (state es)).2.
Proof.
  unfold Hook.state at 1 3 5. rewrite run_snoc.
  destruct (render_spec _ (coherent_step _ e (coherent_run es)))
    as (d & n & -> & _).
  simpl. unfold Hook.step, Hook.view, Hook.state.
  by destruct (useSimpleFormState (run es)) as [f h'].
Qed.

(** The read model of a render is the cells. *)
Lemma view_cells es :
  f_values (view es) = values (state es) ∧
  f_errors (view es) = errors (state es) ∧
  f_touched (view es) = touched (state es).
Proof. destruct (view_spec es) as (d & -> & _). done. Qed.

Lemma view_dirty es :
  props (f_dirty (view es)) = dirty_flags (f_values (view es)) ∧
  f_isDirty (view es) = isDirty (f_dirty (view es)).
Proof. destruct (view_spec es) as (d & -> & Hd). done. Qed.

Lemma view_callbacks es :
  f_setFieldValue (view es) = setFieldValue ∧
  f_validate (view es) = validate (f_values (view es)) ∧
  f_reset (view es) = reset.
Proof. destruct (view_spec es) as (d & -> & _). done. Qed.

Lemma view_bindings es :
  bind_text (view es) = text (f_values (view es)) setFieldValue ∧
  bind_number (view es) = number Number (f_values (view es)) setFieldValue ∧
  bind_checkbox (view es) = checkbox (f_values (view es)) setFieldValue ∧
  bind_select (view es) = select (f_values (view es)) setFieldValue.
Proof. destruct (view_spec es) as (d & -> & _). done. Qed.

(** The read model after an event that ran [setFieldValue name v]. *)
Lemma view_after_set es e name v :
  (dispatch (view es) e (state es)).2 = (setFieldValue name v (state es)).2 →
  props (f_values (view (es ++ [e]))) = <[name := v]> (props (f_values (view es))) ∧
  f_errors (view (es ++ [e])) = f_errors (view es) ∧
  f_touched (view (es ++ [e])) = <[name := true]> (f_touched (view es)).
Proof.
  intros He.
  destruct (view_cells (es ++ [e])) as (-> & -> & ->).
  destruct (view_cells es) as (-> & -> & ->).
  destruct (state_snoc es e) as (-> & -> & ->).
  by rewrite He, setFieldValue_run.
Qed.

(** The read model after an event that left the cells alone. *)
Lemma view_after_skip es e :
  (dispatch (view es) e (state es)).2 = state es →
  f_values (view (es ++ [e])) = f_values (view es) ∧
  f_errors (view (es ++ [e])) = f_errors (view es) ∧
  f_touched (view (es ++ [e])) = f_touched (view es).
Proof.
  intros He.
  destruct (view_cells (es ++ [e])) as (-> & -> & ->).
  destruct (view_cells es) as (-> & -> & ->).
  destruct (state_snoc es e) as (-> & -> & ->).
  by rewrite He.
Qed.

(** The read model after [validate()]. *)
Lemma view_after_validate es :
  f_values (view (es ++ [Validate])) = f_values (view es) ∧
  f_touched (view (es ++ [Validate])) = f_touched (view es) ∧
  f_errors (view (es ++ [Validate])) =
    errors (validate (f_values (view es)) (state es)).2.
Proof.
  destruct (view_cells (es ++ [Validate])) as (-> & -> & ->).
  destruct (state_snoc es Validate) as (-> & -> & ->).
  destruct (view_callbacks es) as (_ & Hvalidate & _).
  destruct (view_cells es) as (Hvalues & _ & Htouched).
  simpl. rewrite Hvalidate. unfold mbind, M_bind.
  rewrite Htouched, Hvalues.
  rewrite validate_run.
  by destruct (schema_parse _) as [?|[?|?]].
Qed.

(** The read model after [reset()]. *)
Lemma view_after_reset es :
  f_values (view (es ++ [Reset])) =
    relabel_obj (λ l, next (state es) + l) initialValues ∧
  f_errors (view (es ++ [Reset])) = ∅ ∧
  f_touched (view (es ++ [Reset])) = ∅.
Proof.
  destruct (view_cells (es ++ [Reset])) as (-> & -> & ->).
  destruct (state_snoc es Reset) as (-> & -> & ->).
  destruct (view_callbacks es) as (_ & _ & Hreset).
  simpl. by rewrite Hreset, reset_run.
Qed.

(** The allocation pointer of a session is past the initial values. *)
Lemma state_next es : bound (to_value initialValues) ≤ next (state es).
Proof.
  unfold Hook.state.
  pose proof (coherent_run es) as Hh.
  destruct (render_spec _ Hh) as (d & n & -> & _ & _ & Hn).
  destruct Hh as (_ & Hinit & _). cbn [hk_store next].
  etrans; [exact Hinit|exact Hn].
Qed.

End Args.
End HookFacts.

(* ===================================================================== *)
(** ** The form engine's contract *)
(* ===================================================================== *)

Module FormSpec.
Import Js React Hook JsFacts HookFacts.

Section Args.

Context (schema_parse : jsobj value → outcome value).
Context (initialValues : jsobj value).
Context (Number : string → num).

#[local] Abbreviation view := (Hook.view schema_parse initialValues Number).
#[local] Abbreviation state := (Hook.state schema_parse initialValues Number).

(** C1, as amended. A failure of [schema.parse] that is not a [ZodError]
    is caught by [validate]: the call returns [false] and writes no cell,
    so [values], [errors] and [touched] are what they were; the failure is
    not routed into [errors]. *)
Theorem validate_catches_other_failures es message :
  schema_parse (f_values (view es)) = Throw (OtherError message) →
  f_validate (view es) (state es) = (Return false, state es) ∧
  f_values (view (es ++ [Validate])) = f_values (view es) ∧
  f_errors (view (es ++ [Validate])) = f_errors (view es) ∧
  f_touched (view (es ++ [Validate])) = f_touched (view es).
Proof.
  intros Hparse.
  destruct (view_callbacks schema_parse initialValues Number es)
    as (_ & Hvalidate & _).
  destruct (view_after_validate schema_parse initialValues Number es)
    as (Hvalues & Htouched & Herrors).
  rewrite Hvalidate, Herrors, validate_run, Hparse.
  destruct (view_cells schema_parse initialValues Number es) as (_ & -> & _).
  done.
Qed.

(** C2. When [schema.parse] accepts the current values, [validate()]
    returns [true] and [errors] becomes the empty object. When it throws a
    [ZodError], [validate()] returns [false] and [errors] becomes the
    flattened errors: under each field that has messages, the messages
    joined with [", "]; whatever [errors] held before is gone. *)
Theorem validate_spec es :
  (∀ parsed,
     schema_parse (f_values (view es)) = Return parsed →
     (f_validate (view es) (state es)).1 = Return true ∧
     f_errors (view (es ++ [Validate])) = ∅) ∧
  (∀ flattenedErrors,
     schema_parse (f_values (view es)) = Throw (ZodError flattenedErrors) →
     (f_validate (view es) (state es)).1 = Return false ∧
     ∀ field,
       f_errors (view (es ++ [Validate])) !! field =
       match flattenedErrors !! field with
       | Some (Some messages) =>
           if 0 <? length messages then Some (join ", " messages) else None
       | _ => None
       end).
Proof.
  destruct (view_callbacks schema_parse initialValues Number es)
    as (_ & Hvalidate & _).
  destruct (view_after_validate schema_parse initialValues Number es)
    as (_ & _ & Herrors).
  rewrite Hvalidate, Herrors, validate_run.
  split.
  - intros parsed ->. done.
  - intros flattenedErrors ->. split; [done|]. intros field. simpl.
    apply collect_fieldErrors_lookup.
Qed.

(** C4. After [setFieldValue(name, v)], [values[name]] is [v] and
    [touched[name]] is [true]; the value and the touched flag of every
    other field are what they were, and so is [errors]: nothing is
    validated. *)
Theorem setFieldValue_spec es name v :
  let f := view es in
  let f' := view (es ++ [SetFieldValue name v]) in
  props (f_values f') !! name = Some v ∧
  f_touched f' !! name = Some true ∧
  (∀ other, other ≠ name →
     props (f_values f') !! other = props (f_values f) !! other ∧
     f_touched f' !! other = f_touched f !! other) ∧
  f_errors f' = f_errors f.
Proof.
  destruct (view_after_set schema_parse initialValues Number es
              (SetFieldValue name v) name v) as (Hvalues & Herrors & Htouched).
  { simpl.
    by destruct (view_callbacks schema_parse initialValues Number es)
      as (-> & _). }
  simpl. rewrite Hvalues, Htouched, Herrors.
  split; [apply lookup_insert_eq|].
  split; [apply lookup_insert_eq|].
  split; [|done].
  intros other Hother. by rewrite !lookup_insert_ne.
Qed.

(** C6. [validate()] leaves [values] (the very same object) and
    [touched] as they are, whatever [schema.parse] does. A field becomes
    touched only by an event that calls [setFieldValue] on it: a direct
    call or the change handler of one of its bindings. *)
Theorem validate_frame es :
  f_values (view (es ++ [Validate])) = f_values (view es) ∧
  f_touched (view (es ++ [Validate])) = f_touched (view es) ∧
  values (f_validate (view es) (state es)).2 = values (state es) ∧
  touched (f_validate (view es) (state es)).2 = touched (state es) ∧
  (∀ e field,
     f_touched (view (es ++ [e])) !! field = Some true →
     f_touched (view es) !! field ≠ Some true →
     target e = Some field).
Proof.
  destruct (view_after_validate schema_parse initialValues Number es)
    as (Hvalues & Htouched & _).
  split; [done|]. split; [done|].
  destruct (view_callbacks schema_parse initialValues Number es)
    as (_ & Hvalidate & _).
  rewrite Hvalidate, validate_run.
  split; [by destruct (schema_parse _) as [?|[?|?]]|].
  split; [by destruct (schema_parse _) as [?|[?|?]]|].
  intros e field Hafter Hbefore.
  destruct (view_spec schema_parse initialValues Number es) as (d & Hview & _).
  pose proof (dispatch_effect schema_parse initialValues Number
                (state es) d e (state es)) as He.
  rewrite <- Hview in He.
  assert (∀ name w,
    (dispatch (view es) e (state es)).2 = (setFieldValue name w (state es)).2 →
    name = field) as Hset.
  { intros name w Hrun.
    destruct (view_after_set schema_parse initialValues Number es e name w Hrun)
      as (_ & _ & Ht).
    rewrite Ht in Hafter. destruct (decide (name = field)) as [|Hne]; [done|].
    by rewrite lookup_insert_ne in Hafter. }
  assert ((dispatch (view es) e (state es)).2 = state es → False) as Hskip.
  { intros Hrun.
    destruct (view_after_skip schema_parse initialValues Number es e Hrun)
      as (_ & _ & Ht).
    by rewrite Ht in Hafter. }
  destruct e as [name w| | |name input|name input|name checked|name input];
    simpl in *.
  - destruct He as [He|(name' & w' & [= <-] & He)]; [by destruct Hskip|].
    f_equal. by eapply Hset.
  - by rewrite Htouched in Hafter.
  - destruct (view_after_reset schema_parse initialValues Number es)
      as (_ & _ & Ht).
    by rewrite Ht, lookup_empty in Hafter.
  - destruct He as [He|(name' & w' & [= <-] & He)]; [by destruct Hskip|].
    f_equal. by eapply Hset.
  - destruct He as [He|(name' & w' & [= <-] & He)]; [by destruct Hskip|].
    f_equal. by eapply Hset.
  - destruct He as [He|(name' & w' & [= <-] & He)]; [by destruct Hskip|].
    f_equal. by eapply Hset.
  - destruct He as [He|(name' & w' & [= <-] & He)]; [by destruct Hskip|].
    f_equal. by eapply Hset.
Qed.

(** C3, where the code departs from it. [dirty] never has an entry for
    the key [__proto__], at any render: the loop stores each flag by the
    assignment [result[key] = ...], which for this key creates no
    property. After [setFieldValue("__proto__", v)] the field is in
    [values] and in [touched], which are built by object literals with a
    computed key, but not in [dirty], and it does not count for
    [isDirty]: [isDirty] is what it would be without the field. *)
Theorem dirty_misses_proto es v :
  let f := view es in
  let f' := view (es ++ [SetFieldValue "__proto__" v]) in
  props (f_values f') !! "__proto__" = Some v ∧
  f_touched f' !! "__proto__" = Some true ∧
  props (f_dirty f') !! "__proto__" = None ∧
  props (f_dirty f) !! "__proto__" = None ∧
  (f_isDirty f' = true ↔
   ∃ k, k ≠ "__proto__" ∧ props (f_dirty f) !! k = Some true).
Proof.
  destruct (view_after_set schema_parse initialValues Number es
              (SetFieldValue "__proto__" v) "__proto__" v)
    as (Hvalues & _ & Htouched).
  { simpl.
    by destruct (view_callbacks schema_parse initialValues Number es)
      as (-> & _). }
  destruct (view_dirty schema_parse initialValues Number es) as (Hd & _).
  destruct (view_dirty schema_parse initialValues Number
              (es ++ [SetFieldValue "__proto__" v])) as (Hd' & Hany').
  cbv zeta.
  split; [by rewrite Hvalues, lookup_insert_eq|].
  split; [by rewrite Htouched, lookup_insert_eq|].
  split; [by rewrite Hd', dirty_flags_lookup|].
  split; [by rewrite Hd, dirty_flags_lookup|].
  assert (∀ k, k ≠ "__proto__" →
          props (f_dirty (view (es ++ [SetFieldValue "__proto__" v]))) !! k =
          props (f_dirty (view es)) !! k) as Hother.
  { intros k Hk. rewrite Hd', Hd, !dirty_flags_lookup, Hvalues.
    rewrite bool_decide_false by done. by rewrite lookup_insert_ne. }
  rewrite Hany', isDirty_true. split.
  - intros (k & Hk). destruct (decide (k = "__proto__")) as [->|Hne].
    + by rewrite Hd', dirty_flags_lookup in Hk.
    + exists k. split; [done|]. by rewrite <- Hother.
  - intros (k & Hne & Hk). exists k. by rewrite Hother.
Qed.

(** The [dirty] flags of a clone of the initial values: all [false]. *)
Lemma dirty_flags_clone f :
  dirty_flags initialValues (relabel_obj f initialValues) =
  (λ _, false) <$> delete "__proto__" (props initialValues).
Proof.
  apply map_eq. intros k.
  rewrite dirty_flags_lookup, lookup_fmap.
  case_bool_decide as Hk; [subst k; by rewrite lookup_delete_eq|].
  rewrite lookup_delete_ne by done.
  unfold get. simpl. rewrite lookup_fmap.
  destruct (props initialValues !! k) as [x|]; simpl; [|done].
  by rewrite equal_relabel.
Qed.

(** C5. After [reset()], whatever came before: [values] is deep-equal
    to [initialValues] and shares no object with it, so that no mutation
    of an object of [values] changes [initialValues]; [errors] and
    [touched] are empty; every entry of [dirty] is [false] and [isDirty]
    is [false]. A second [reset()] changes nothing: [values] has the same
    contents (in a new clone), and [errors], [touched], [dirty] and
    [isDirty] are the same. *)
Theorem reset_spec es :
  let f := view (es ++ [Reset]) in
  let f' := view (es ++ [Reset; Reset]) in
  isEqual (to_value (f_values f)) (to_value initialValues) = true ∧
  (∀ l, reaches l (to_value (f_values f)) →
        ¬ reaches l (to_value initialValues)) ∧
  (∀ l mutation, reaches l (to_value (f_values f)) →
        update_at l mutation (to_value initialValues) = to_value initialValues) ∧
  f_errors f = ∅ ∧
  f_touched f = ∅ ∧
  (∀ k flag, props (f_dirty f) !! k = Some flag → flag = false) ∧
  f_isDirty f = false ∧
  erase (to_value (f_values f')) = erase (to_value (f_values f)) ∧
  f_errors f' = f_errors f ∧
  f_touched f' = f_touched f ∧
  props (f_dirty f') = props (f_dirty f) ∧
  f_isDirty f' = f_isDirty f.
Proof.
  assert (∀ es',
    let f := view (es' ++ [Reset]) in
    f_values f = relabel_obj (λ l, next (state es') + l) initialValues ∧
    f_errors f = ∅ ∧ f_touched f = ∅ ∧
    props (f_dirty f) =
      (λ _, false) <$> delete "__proto__" (props initialValues) ∧
    f_isDirty f = false) as Hreset.
  { intros es'. simpl.
    destruct (view_after_reset schema_parse initialValues Number es')
      as (Hvalues & Herrors & Htouched).
    destruct (view_dirty schema_parse initialValues Number (es' ++ [Reset]))
      as (Hdirty & HisDirty).
    rewrite Hvalues in Hdirty. rewrite dirty_flags_clone in Hdirty.
    repeat (split; [done|]).
    destruct (f_isDirty _) eqn:Hflag; [|done].
    symmetry in HisDirty. apply isDirty_true in HisDirty as (k & Hk).
    rewrite Hdirty, lookup_fmap in Hk.
    by destruct (delete "__proto__" (props initialValues) !! k). }
  assert (∀ n, to_value (relabel_obj (λ l, n + l) initialValues) =
               relabel (λ l, n + l) (to_value initialValues)) as Hclone by done.
  destruct (Hreset es) as (Hvalues & Herrors & Htouched & Hdirty & HisDirty).
  destruct (Hreset (es ++ [Reset]))
    as (Hvalues' & Herrors' & Htouched' & Hdirty' & HisDirty').
  rewrite <- (assoc_L (++)) in Hvalues', Herrors', Htouched', Hdirty', HisDirty'.
  cbn [app] in Hvalues', Herrors', Htouched', Hdirty', HisDirty'. cbv zeta.
  rewrite Hvalues, Hvalues', Herrors, Herrors', Htouched, Htouched',
    Hdirty, Hdirty', HisDirty, HisDirty', !Hclone.
  assert (∀ l, reaches l (relabel (λ l, next (state es) + l)
                            (to_value initialValues)) →
               ¬ reaches l (to_value initialValues)) as Hfresh.
  { intros l Hl Hl'.
    apply reaches_relabel in Hl as (l0 & -> & _).
    apply reaches_bound in Hl'.
    pose proof (state_next schema_parse initialValues Number es). lia. }
  split; [apply equal_relabel|].
  split; [done|].
  split; [intros l mutation Hl; by apply update_at_unreached, Hfresh|].
  split; [done|]. split; [done|].
  split.
  { intros k flag. rewrite lookup_fmap.
    destruct (delete "__proto__" (props initialValues) !! k); simpl;
      congruence. }
  split; [done|].
  split; [by rewrite !erase_relabel|].
  done.
Qed.

(** C7, as amended. Asking for the text binding of a field whose value
    [values[name]] is neither [null] nor [undefined] and not a string
    throws a type-mismatch error: no props are returned. When
    [values[name]] is [null] or [undefined] the props are returned and
    their [value] is the empty string; this is the case of an absent field
    unless its name is a member of [Object.prototype]: such a name
    ([constructor], [toString], [__proto__], ...) reads the inherited
    member and the binding throws. A string value is shown as it is. *)
Theorem text_binding_spec es name :
  let f := view es in
  let r := get (f_values f) name in
  (not_nullish r = true → typeof r ≠ TString →
     bind_text f name =
     Throw (OtherError
       ("useSimpleFormState.text(): field '" ++ name ++ "' is not a string"))) ∧
  (r = VNull ∨ r = VUndefined →
     ∃ p, bind_text f name = Return p ∧
          p_name p = name ∧ p_value p = VStr "") ∧
  (props (f_values f) !! name = None →
     name ≠ "__proto__" → name ∉ Object_prototype_functions →
     ∃ p, bind_text f name = Return p ∧
          p_name p = name ∧ p_value p = VStr "") ∧
  (props (f_values f) !! name = None →
     name = "__proto__" ∨ name ∈ Object_prototype_functions →
     bind_text f name =
     Throw (OtherError
       ("useSimpleFormState.text(): field '" ++ name ++ "' is not a string"))) ∧
  (∀ s, r = VStr s →
     ∃ p, bind_text f name = Return p ∧ p_name p = name ∧ p_value p = VStr s).
Proof.
  destruct (view_bindings schema_parse initialValues Number es) as (Htext & _).
  cbv zeta. rewrite Htext. unfold text.
  split; [|split; [|split; [|split]]].
  - intros -> Htype. by rewrite bool_decide_false.
  - intros [->| ->]; (eexists; split; [done|]; done).
  - intros Hnone Hproto Hfun. unfold get. rewrite Hnone.
    rewrite bool_decide_false by done. rewrite bool_decide_false by done.
    eexists. split; [done|]. done.
  - intros Hnone Hname. unfold get. rewrite Hnone.
    destruct Hname as [->|Hfun]; [done|].
    case_bool_decide; [done|]. by rewrite bool_decide_true.
  - intros s ->. eexists. split; [done|]. done.
Qed.

(** C8, as amended. The checkbox binding makes the same check as the
    text and number bindings: when [values[name]] is neither [null] nor
    [undefined] and not a boolean it throws a type-mismatch error and
    returns no props; so it does for an absent field whose name is a
    member of [Object.prototype], which reads the inherited member.
    Otherwise it returns props whose [checked] is the value coerced to a
    boolean ([null] and [undefined] give [false]), and its change handler
    passes the boolean of the event to [setFieldValue], which stores it as
    it is. *)
Theorem checkbox_binding_spec es name :
  let f := view es in
  let r := get (f_values f) name in
  (not_nullish r = true → typeof r ≠ TBoolean →
     bind_checkbox f name =
     Throw (OtherError
       ("useSimpleFormState.checkbox(): field '" ++ name
          ++ "' is not a boolean"))) ∧
  (props (f_values f) !! name = None →
     name = "__proto__" ∨ name ∈ Object_prototype_functions →
     bind_checkbox f name =
     Throw (OtherError
       ("useSimpleFormState.checkbox(): field '" ++ name
          ++ "' is not a boolean"))) ∧
  (not_nullish r = false ∨ typeof r = TBoolean →
     ∃ p, bind_checkbox f name = Return p ∧
          c_name p = name ∧
          c_checked p = truthy r ∧
          (not_nullish r = false → c_checked p = false) ∧
          ∀ checked,
            c_onChange p checked = setFieldValue name (VBool checked) ∧
            let f' := view (es ++ [CheckboxChange name checked]) in
            props (f_values f') !! name = Some (VBool checked) ∧
            f_touched f' !! name = Some true).
Proof.
  destruct (view_bindings schema_parse initialValues Number es)
    as (_ & _ & Hcheckbox & _).
  cbv zeta. rewrite Hcheckbox. unfold checkbox.
  split; [|split].
  - intros -> Htype. by rewrite bool_decide_false.
  - intros Hnone Hname. unfold get. rewrite Hnone.
    destruct Hname as [->|Hfun]; [done|].
    case_bool_decide; [done|]. by rewrite bool_decide_true.
  - intros Hv.
    assert (not_nullish (get (f_values (view es)) name)
            && negb (bool_decide (typeof (get (f_values (view es)) name)
                                  = TBoolean)) = false) as Hcheck.
    { destruct Hv as [->| ->]; [done|].
      rewrite bool_decide_true by done. apply andb_false_r. }
    rewrite Hcheck. eexists. split; [done|]. simpl.
    split; [done|]. split; [done|].
    split; [by destruct (get _ name) as [[]| |]|].
    intros checked. split; [done|].
    destruct (view_after_set schema_parse initialValues Number es
                (CheckboxChange name checked) name (VBool checked))
      as (Hvalues & _ & Htouched).
    { simpl. rewrite Hcheckbox. unfold checkbox. by rewrite Hcheck. }
    rewrite Hvalues, Htouched. by rewrite !lookup_insert_eq.
Qed.

(** C9. The change handler of a number binding stores [null] for the
    empty input, which is not the number [0], and [Number(input)] for any
    other input, with no test of the result: when [Number(input)] is
    [NaN], [NaN] is what [values] holds. *)
Theorem number_change_spec es name input p :
  bind_number (view es) name = Return p →
  let f' := view (es ++ [NumberChange name input]) in
  p_onChange p input =
    setFieldValue name
      (if bool_decide (input = "") then VNull else VNum (Number input)) ∧
  (input = "" → props (f_values f') !! name = Some VNull) ∧
  (input ≠ "" → props (f_values f') !! name = Some (VNum (Number input))) ∧
  (input ≠ "" → Number input = NaN →
     props (f_values f') !! name = Some (VNum NaN)) ∧
  f_touched f' !! name = Some true ∧
  (∀ n, VNull ≠ VNum n).
Proof.
  intros Hp.
  destruct (view_bindings schema_parse initialValues Number es)
    as (_ & Hnumber & _).
  destruct (view_after_set schema_parse initialValues Number es
              (NumberChange name input) name
              (if bool_decide (input = "") then VNull else VNum (Number input)))
    as (Hvalues & _ & Htouched).
  { simpl. rewrite Hp. simpl. rewrite Hnumber in Hp. unfold number in Hp.
    destruct (_ && _); [done|]. by injection Hp as <-. }
  cbv zeta. rewrite Hvalues, Htouched, !lookup_insert_eq.
  split.
  { rewrite Hnumber in Hp. unfold number in Hp.
    destruct (_ && _); [done|]. by injection Hp as <-. }
  split; [intros ->; by rewrite bool_decide_true|].
  split; [intros Hne; by rewrite bool_decide_false|].
  split; [intros Hne <-; by rewrite bool_decide_false|].
  done.
Qed.

(** C10, as amended. After a [ZodError], [errors] has an entry for a
    field only when the flattened errors list at least one message for
    it, and the entry is these messages joined with [", "]; a field that
    is missing, that has no list or whose list is empty gets no entry. An
    entry is the empty string only when the one message of its field is
    the empty string. *)
Theorem errors_entries_spec es flattenedErrors field :
  schema_parse (f_values (view es)) = Throw (ZodError flattenedErrors) →
  (∀ s, f_errors (view (es ++ [Validate])) !! field = Some s →
     ∃ messages,
       flattenedErrors !! field = Some (Some messages) ∧
       messages ≠ [] ∧
       s = join ", " messages ∧
       (s = "" → messages = [""])) ∧
  (flattenedErrors !! field = None ∨
   flattenedErrors !! field = Some None ∨
   flattenedErrors !! field = Some (Some []) →
   f_errors (view (es ++ [Validate])) !! field = None).
Proof.
  intros Hparse.
  destruct (view_after_validate schema_parse initialValues Number es)
    as (_ & _ & Herrors).
  rewrite Herrors, validate_run, Hparse. simpl.
  rewrite collect_fieldErrors_lookup.
  split.
  - intros s Hs.
    destruct (flattenedErrors !! field) as [[messages|]|]; [|done..].
    exists messages. split; [done|].
    destruct messages as [|m messages]; [done|].
    change (0 <? length (m :: messages)) with true in Hs. injection Hs as <-.
    split; [done|]. split; [done|].
    intros Hempty. by destruct (join_empty (m :: messages) Hempty).
  - by intros [->|[->| ->]].
Qed.

End Args.
End FormSpec.

(* ===================================================================== *)
(** ** The contract on the user form of the README *)
(* ===================================================================== *)

Module Examples.
Import Js React Hook Demo FormSpec.

(** C1 as the specification states it fails: with a schema whose [parse]
    throws something that is not a [ZodError], [validate()] returns
    [false] instead of letting the failure through. *)
Lemma validate_propagates_counterexample :
  (f_validate (broken_form []) (broken_cells [])).1 = Return false ∧
  ¬ (∀ (schema_parse : jsobj value → outcome value)
       (initialValues : jsobj value) (Number : string → num)
       (es : list event) (message : string),
       schema_parse (f_values (view schema_parse initialValues Number es)) =
         Throw (OtherError message) →
       (f_validate (view schema_parse initialValues Number es)
          (state schema_parse initialValues Number es)).1 =
         Throw (OtherError message)).
Proof.
  split; [by vm_compute|].
  intros H.
  specialize (H brokenSchema initialValues Number [] _ eq_refl).
  vm_compute in H. discriminate H.
Qed.

Lemma validate_catches_other_failures_witness :
  (f_validate (broken_form [SetFieldValue "age" (VNum minus_one)])
     (broken_cells [SetFieldValue "age" (VNum minus_one)])).1 = Return false ∧
  f_errors (broken_form [SetFieldValue "age" (VNum minus_one); Validate]) = ∅.
Proof.
  destruct (validate_catches_other_failures brokenSchema initialValues Number
              [SetFieldValue "age" (VNum minus_one)] _ eq_refl)
    as (Hresult & _ & Herrors & _).
  split.
  - unfold broken_form, broken_cells. rewrite Hresult. reflexivity.
  - unfold broken_form. cbn [app] in Herrors. rewrite Herrors.
    vm_compute. reflexivity.
Defined.

(** The values of the README satisfy its schema once a name is typed;
    the empty name violates both rules of the strict schema. *)
Lemma validate_spec_witness :
  ((f_validate (user_form [TextChange "name" "Ada"])
      (user_cells [TextChange "name" "Ada"])).1 = Return true ∧
   f_errors (user_form [TextChange "name" "Ada"; Validate]) = ∅) ∧
  ((f_validate (strict_form []) (strict_cells [])).1 = Return false ∧
   f_errors (strict_form [Validate]) !! "name" = Some "Required, Too short").
Proof.
  split.
  - destruct (validate_spec userSchema initialValues Number
                [TextChange "name" "Ada"]) as (Hok & _).
    apply (Hok (to_value (f_values (user_form [TextChange "name" "Ada"])))).
    vm_compute. reflexivity.
  - destruct (validate_spec strictSchema initialValues Number []) as (_ & Hko).
    destruct (Hko {["name" := Some ["Required"; "Too short"]]}) as (Hfalse & Herrors).
    { vm_compute. reflexivity. }
    split; [exact Hfalse|].
    unfold strict_form. cbn [app] in Herrors. rewrite Herrors.
    vm_compute. reflexivity.
Defined.

(** On a form with free field names, the field [__proto__] is written:
    [values] and [touched] hold it, [dirty] has no flag for it and
    [isDirty] is [false]. *)
Lemma dirty_misses_proto_witness :
  props (f_values (record_form [SetFieldValue "__proto__" (VStr "x")]))
    !! "__proto__" = Some (VStr "x") ∧
  f_touched (record_form [SetFieldValue "__proto__" (VStr "x")])
    !! "__proto__" = Some true ∧
  props (f_dirty (record_form [SetFieldValue "__proto__" (VStr "x")]))
    !! "__proto__" = None ∧
  f_isDirty (record_form [SetFieldValue "__proto__" (VStr "x")]) = false.
Proof.
  destruct (dirty_misses_proto recordSchema emptyValues Number []
              (VStr "x")) as (Hvalue & Htouched & Hdirty & _ & _).
  split; [exact Hvalue|]. split; [exact Htouched|]. split; [exact Hdirty|].
  vm_compute. reflexivity.
Defined.

Lemma setFieldValue_spec_witness :
  props (f_values (user_form [SetFieldValue "age" (VNum minus_one)])) !! "age"
    = Some (VNum minus_one) ∧
  f_touched (user_form [SetFieldValue "age" (VNum minus_one)]) !! "age"
    = Some true ∧
  props (f_values (user_form [SetFieldValue "age" (VNum minus_one)])) !! "name"
    = Some (VStr "") ∧
  f_touched (user_form [SetFieldValue "age" (VNum minus_one)]) !! "name" = None.
Proof.
  destruct (setFieldValue_spec userSchema initialValues Number []
              "age" (VNum minus_one)) as (Hvalue & Htouched & Hframe & _).
  split; [exact Hvalue|]. split; [exact Htouched|].
  destruct (Hframe "name") as (Hname & Hname'); [discriminate|].
  unfold user_form. cbn [app] in Hname, Hname'. rewrite Hname, Hname'.
  split; vm_compute; reflexivity.
Defined.

(** Before a reset, [values] shares the objects of [initialValues] that
    no event replaced; after it, it shares none. *)
Lemma reset_spec_witness :
  reaches 1 (to_value (f_values (nested_form [SetFieldValue "tags" VNull]))) ∧
  reaches 1 (to_value nestedValues) ∧
  ¬ reaches 1 (to_value (f_values (nested_form [SetFieldValue "tags" VNull; Reset]))) ∧
  isEqual (to_value (f_values (nested_form [SetFieldValue "tags" VNull; Reset])))
          (to_value nestedValues) = true ∧
  f_touched (nested_form [SetFieldValue "tags" VNull; Reset]) = ∅ ∧
  f_isDirty (nested_form [SetFieldValue "tags" VNull; Reset]) = false.
Proof.
  destruct (reset_spec userSchema nestedValues Number [SetFieldValue "tags" VNull])
    as (Hequal & Hfresh & _ & _ & Htouched & _ & Hdirty & _).
  cbn [app] in Hequal, Hfresh, Htouched, Hdirty.
  assert (reaches 1 (to_value nestedValues)) as Hinit.
  { apply (reaches_prop 1 0 _ "address" (VObj 1 {["city" := VStr "Oslo"]})).
    - vm_compute. reflexivity.
    - apply reaches_obj. }
  split; [|split; [exact Hinit|split; [|split; [exact Hequal|split;
    [exact Htouched|exact Hdirty]]]]].
  - apply (reaches_prop 1 _ _ "address" (VObj 1 {["city" := VStr "Oslo"]})).
    + vm_compute. reflexivity.
    + apply reaches_obj.
  - intros Hreach. exact (Hfresh 1 Hreach Hinit).
Defined.

Lemma validate_frame_witness :
  f_values (user_form [Validate]) = f_values (user_form []) ∧
  f_touched (user_form [Validate]) = f_touched (user_form []) ∧
  target (TextChange "name" "Ada") = Some "name".
Proof.
  destruct (validate_frame userSchema initialValues Number [])
    as (Hvalues & Htouched & _ & _ & Honly).
  split; [exact Hvalues|]. split; [exact Htouched|].
  apply (Honly (TextChange "name" "Ada") "name").
  - vm_compute. reflexivity.
  - vm_compute. discriminate.
Defined.

(** C7 as the specification states it fails: a form with free field
    names holds no field [constructor], and the text binding for that
    name throws instead of returning props that show the empty string. *)
Lemma text_absent_counterexample :
  props (f_values (record_form [])) !! "constructor" = None ∧
  bind_text (record_form []) "constructor" =
    Throw (OtherError
             "useSimpleFormState.text(): field 'constructor' is not a string") ∧
  ¬ (∀ (schema_parse : jsobj value → outcome value)
       (initialValues : jsobj value) (Number : string → num)
       (es : list event) (name : string),
       props (f_values (view schema_parse initialValues Number es)) !! name
         = None →
       ∃ p, bind_text (view schema_parse initialValues Number es) name
              = Return p ∧
            p_value p = VStr "").
Proof.
  split; [by vm_compute|]. split; [by vm_compute|].
  intros H.
  destruct (H recordSchema emptyValues Number [] "constructor")
    as (p & Hp & _).
  - vm_compute. reflexivity.
  - vm_compute in Hp. discriminate Hp.
Qed.

(** The binding mismatch of the specification: [age] is a number, and
    the text binding for it throws. A field set to [null] and a field the
    form does not have show the empty string. *)
Lemma text_binding_spec_witness :
  bind_text (user_form []) "age" =
    Throw (OtherError "useSimpleFormState.text(): field 'age' is not a string") ∧
  (∃ p, bind_text (user_form [SetFieldValue "name" VNull]) "name" = Return p ∧
        p_name p = "name" ∧ p_value p = VStr "") ∧
  (∃ p, bind_text (user_form []) "nickname" = Return p ∧
        p_name p = "nickname" ∧ p_value p = VStr "") ∧
  bind_text (record_form []) "toString" =
    Throw (OtherError
             "useSimpleFormState.text(): field 'toString' is not a string").
Proof.
  split; [|split; [|split]].
  - destruct (text_binding_spec userSchema initialValues Number [] "age")
      as (Hthrow & _).
    apply Hthrow.
    + vm_compute. reflexivity.
    + vm_compute. discriminate.
  - destruct (text_binding_spec userSchema initialValues Number
                [SetFieldValue "name" VNull] "name") as (_ & Hnull & _).
    apply Hnull. left. vm_compute. reflexivity.
  - destruct (text_binding_spec userSchema initialValues Number [] "nickname")
      as (_ & _ & Habsent & _).
    apply Habsent.
    + vm_compute. reflexivity.
    + discriminate.
    + vm_compute. intros H. by repeat (apply elem_of_cons in H as [H|H];
        [discriminate H|]); apply elem_of_nil in H.
  - destruct (text_binding_spec recordSchema emptyValues Number [] "toString")
      as (_ & _ & _ & Hinherited & _).
    apply Hinherited.
    + vm_compute. reflexivity.
    + right. vm_compute. repeat constructor.
Defined.

(** C8 as the specification states it fails: the checkbox binding of a
    field that holds a string throws, it returns no props. *)
Lemma checkbox_regardless_counterexample :
  bind_checkbox (user_form []) "name" =
    Throw (OtherError
             "useSimpleFormState.checkbox(): field 'name' is not a boolean") ∧
  ¬ (∀ (schema_parse : jsobj value → outcome value)
       (initialValues : jsobj value) (Number : string → num)
       (es : list event) (name : string),
       ∃ p, bind_checkbox (view schema_parse initialValues Number es) name
              = Return p ∧
            c_checked p =
              truthy (get (f_values (view schema_parse initialValues Number es))
                        name)).
Proof.
  split; [by vm_compute|].
  intros H.
  destruct (H userSchema initialValues Number [] "name") as (p & Hp & _).
  vm_compute in Hp. discriminate Hp.
Qed.

Lemma checkbox_binding_spec_witness :
  bind_checkbox (user_form []) "name" =
    Throw (OtherError
             "useSimpleFormState.checkbox(): field 'name' is not a boolean") ∧
  bind_checkbox (record_form []) "valueOf" =
    Throw (OtherError
             "useSimpleFormState.checkbox(): field 'valueOf' is not a boolean") ∧
  (∃ p, bind_checkbox (user_form [SetFieldValue "isAdmin" VNull]) "isAdmin"
          = Return p ∧ c_checked p = false) ∧
  props (f_values (user_form [CheckboxChange "isAdmin" true])) !! "isAdmin"
    = Some (VBool true).
Proof.
  split; [|split; [|split]].
  - destruct (checkbox_binding_spec userSchema initialValues Number [] "name")
      as (Hthrow & _).
    apply Hthrow.
    + vm_compute. reflexivity.
    + vm_compute. discriminate.
  - destruct (checkbox_binding_spec recordSchema emptyValues Number []
                "valueOf") as (_ & Hinherited & _).
    apply Hinherited.
    + vm_compute. reflexivity.
    + right. vm_compute. repeat constructor.
  - destruct (checkbox_binding_spec userSchema initialValues Number
                [SetFieldValue "isAdmin" VNull] "isAdmin") as (_ & _ & Hprops).
    destruct Hprops as (p & Hp & _ & _ & Hnull & _).
    { left. vm_compute. reflexivity. }
    exists p. split; [exact Hp|]. apply Hnull. vm_compute. reflexivity.
  - destruct (checkbox_binding_spec userSchema initialValues Number
                [] "isAdmin") as (_ & _ & Hprops).
    destruct Hprops as (p & _ & _ & _ & _ & Hchange).
    { right. vm_compute. reflexivity. }
    destruct (Hchange true) as (_ & Hvalue & _). exact Hvalue.
Defined.

Lemma number_change_spec_witness :
  bind_number (user_form []) "age" = Return age_props ∧
  props (f_values (user_form [NumberChange "age" "abc"])) !! "age"
    = Some (VNum NaN) ∧
  props (f_values (user_form [NumberChange "age" ""])) !! "age" = Some VNull ∧
  props (f_values (user_form [NumberChange "age" "42"])) !! "age"
    = Some (VNum (S754_finite false 5910974510923776 (-47))).
Proof.
  assert (bind_number (user_form []) "age" = Return age_props) as Hp
    by reflexivity.
  split; [exact Hp|]. split; [|split].
  - destruct (number_change_spec userSchema initialValues Number
                [] "age" "abc" age_props Hp) as (_ & _ & _ & Hnan & _).
    apply Hnan; [discriminate|reflexivity].
  - destruct (number_change_spec userSchema initialValues Number
                [] "age" "" age_props Hp) as (_ & Hnull & _).
    apply Hnull. reflexivity.
  - destruct (number_change_spec userSchema initialValues Number
                [] "age" "42" age_props Hp) as (_ & _ & Hnum & _).
    apply Hnum. discriminate.
Defined.

(** C10 as the specification states it fails: a rule with the empty
    message gives an entry of [errors] that is the empty string. *)
Lemma errors_nonempty_counterexample :
  f_errors (silent_form [Validate]) !! "name" = Some "" ∧
  ¬ (∀ (schema_parse : jsobj value → outcome value)
       (initialValues : jsobj value) (Number : string → num)
       (es : list event) (flattenedErrors : gmap string (option (list string)))
       (field s : string),
       schema_parse (f_values (view schema_parse initialValues Number es)) =
         Throw (ZodError flattenedErrors) →
       f_errors (view schema_parse initialValues Number (es ++ [Validate]))
         !! field = Some s →
       (∃ messages, flattenedErrors !! field = Some (Some messages) ∧
                    messages ≠ []) ∧
       s ≠ "").
Proof.
  split; [by vm_compute|].
  intros H.
  destruct (H silentSchema initialValues Number []
              (<["name" := Some [""]]> ∅) "name" "") as (_ & Hnonempty).
  - vm_compute. reflexivity.
  - vm_compute. reflexivity.
  - by apply Hnonempty.
Qed.

Lemma errors_entries_spec_witness :
  (∃ messages,
     ({["name" := Some ["Name is required"]]} : gmap string (option (list string)))
       !! "name" = Some (Some messages) ∧
     messages ≠ [] ∧ "Name is required" = join ", " messages) ∧
  f_errors (user_form [Validate]) !! "role" = None.
Proof.
  destruct (errors_entries_spec userSchema initialValues Number []
              {["name" := Some ["Name is required"]]} "name") as (Hentry & _).
  { vm_compute. reflexivity. }
  destruct (errors_entries_spec userSchema initialValues Number []
              {["name" := Some ["Name is required"]]} "role") as (_ & Hnone).
  { vm_compute. reflexivity. }
  split.
  - destruct (Hentry "Name is required") as (messages & Hm & Hne & Hjoin & _).
    { vm_compute. reflexivity. }
    exists messages. split; [exact Hm|]. split; [exact Hne|exact Hjoin].
  - apply Hnone. left. vm_compute. reflexivity.
Defined.

End Examples.

(* ===================================================================== *)
(** ** More facts about sessions: every event, and the memo cells *)
(* ===================================================================== *)

Module SessionFacts.
Import Js React Hook JsFacts HookFacts.

Section Args.

Context (schema_parse : jsobj value → outcome value).
Context (initialValues : jsobj value).
Context (Number : string → num).

#[local] Abbreviation validate := (Hook.validate schema_parse).
#[local] Abbreviation dirty_flags := (Hook.dirty_flags initialValues).
#[local] Abbreviation form_of := (Hook.form_of schema_parse initialValues Number).
#[local] Abbreviation rendered := (Hook.rendered schema_parse initialValues Number).
#[local] Abbreviation useSimpleFormState :=
  (Hook.useSimpleFormState schema_parse initialValues Number).
#[local] Abbreviation run := (Hook.run schema_parse initialValues Number).
#[local] Abbreviation view := (Hook.view schema_parse initialValues Number).
#[local] Abbreviation state := (Hook.state schema_parse initialValues Number).

(** What one event does to the read model: [validate] and [reset] as
    such; any other event writes its target through [setFieldValue], or
    leaves everything as it is. *)
Lemma view_after_event es e :
  match e with
  | Validate =>
      f_values (view (es ++ [e])) = f_values (view es) ∧
      f_touched (view (es ++ [e])) = f_touched (view es) ∧
      f_errors (view (es ++ [e])) =
        errors (validate (f_values (view es)) (state es)).2
  | Reset =>
      f_values (view (es ++ [e])) =
        relabel_obj (λ l, next (state es) + l) initialValues ∧
      f_errors (view (es ++ [e])) = ∅ ∧
      f_touched (view (es ++ [e])) = ∅
  | _ =>
      (f_values (view (es ++ [e])) = f_values (view es) ∧
       f_errors (view (es ++ [e])) = f_errors (view es) ∧
       f_touched (view (es ++ [e])) = f_touched (view es)) ∨
      ∃ name v,
        target e = Some name ∧
        props (f_values (view (es ++ [e]))) =
          <[name := v]> (props (f_values (view es))) ∧
        f_errors (view (es ++ [e])) = f_errors (view es) ∧
        f_touched (view (es ++ [e])) = <[name := true]> (f_touched (view es))
  end.
Proof.
  destruct (view_spec schema_parse initialValues Number es) as (d & Hview & _).
  pose proof (dispatch_effect schema_parse initialValues Number
                (state es) d e (state es)) as He.
  rewrite <- Hview in He.
  destruct e as [name v| | |name input|name input|name checked|name input];
    try (destruct He as [He|(name' & v' & Htarget & He)];
         [left; by apply view_after_skip
         |right; exists name', v'; split; [done|]; by apply view_after_set]).
  - apply view_after_validate.
  - apply view_after_reset.
Qed.

(** The hook after one more event: the cells the event left, and the
    memo cells of the last render. *)
Lemma run_snoc_memo es e :
  run (es ++ [e]) =
    HookState (dispatch (view es) e (state es)).2
              (rendered (f_values (view es)) (f_dirty (view es))) ∧
  oid (f_values (view es)) < next (state es) ∧
  oid (f_dirty (view es)) < next (state es).
Proof.
  rewrite run_snoc. unfold Hook.view, Hook.state.
  pose proof (coherent_run schema_parse initialValues Number es) as Hh.
  destruct (step_spec schema_parse initialValues Number (run es) e Hh)
    as (d & n & _ & Hd & Hn & -> & -> & ->).
  destruct Hh as (Hv & _). simpl in *. split; [done|]. lia.
Qed.

(** The cells of the first render. *)
Lemma view_mount :
  f_values (view []) = initialValues ∧
  f_errors (view []) = ∅ ∧
  f_touched (view []) = ∅ ∧
  f_dirty (view []) =
    JsObj (bound (to_value initialValues)) (dirty_flags initialValues) ∧
  state [] =
    Store initialValues ∅ ∅ (S (bound (to_value initialValues))).
Proof.
  unfold Hook.view, Hook.state, Hook.run. cbn [foldl]. unfold mount.
  by rewrite render_unrendered.
Qed.

End Args.
(** *** Sessions in which the options change *)

Section Sessions.

Context (schema_parse : jsobj value → outcome value).
Context (Number : string → num).

#[local] Abbreviation render := (useSimpleFormState schema_parse).
#[local] Abbreviation shaped := (Hook.shaped schema_parse Number).
#[local] Abbreviation callbacks_shaped :=
  (Hook.callbacks_shaped schema_parse Number).
#[local] Abbreviation tracked := (Hook.tracked schema_parse Number).
#[local] Abbreviation run_with := (Hook.run_with schema_parse Number).
#[local] Abbreviation view_with := (Hook.view_with schema_parse Number).
#[local] Abbreviation state_with := (Hook.state_with schema_parse Number).

(** A [useCallback] returns what its cell holds afterwards: the callback
    the cell kept, when the dependencies are the same, or the new one. *)
Lemma useCallback_spec {D A} (same : D → D → bool) cell (callback : A) deps :
  ∃ d a, useCallback same cell callback deps = (a, Some (d, a)) ∧
         ((cell = Some (d, a) ∧ same d deps = true) ∨
          (d = deps ∧ a = callback)).
Proof.
  unfold useCallback, useMemo.
  destruct cell as [[d a]|]; [destruct (same d deps) eqn:Hsame|]; simpl.
  - exists d, a. split; [done|]. by left.
  - exists deps, callback. split; [done|]. by right.
  - exists deps, callback. split; [done|]. by right.
Qed.

(** A [useMemo] reuses the result its cell keeps when the dependencies
    are the same, and runs the factory otherwise. *)
Lemma useMemo_spec {D A} (same : D → D → bool) cell (factory : alloc A) deps n :
  (∃ d a, cell = Some (d, a) ∧ same d deps = true ∧
          useMemo same cell factory deps n = ((a, cell), n)) ∨
  ((∀ d a, cell = Some (d, a) → same d deps = false) ∧
   useMemo same cell factory deps n =
     (((factory n).1, Some (deps, (factory n).1)), (factory n).2)).
Proof.
  unfold useMemo.
  destruct cell as [[d a]|]; [destruct (same d deps) eqn:Hsame|].
  - left. by exists d, a.
  - right. split; [by intros ?? [= <- <-]|]. by destruct (factory n).
  - right. split; [done|]. by destruct (factory n).
Qed.

(** One render, hook call by hook call. *)
Lemma render_unfold o h :
  render o Number h =
  let s := hk_store h in
  let c := hk_memo h in
  let u1 := useCallback same0 (m_setFieldValue c) setFieldValue tt in
  let u2 := useCallback same1 (m_text c) (text (values s) u1.1) (values s) in
  let u3 := useCallback same1 (m_number c)
              (number Number (values s) u1.1) (values s) in
  let u4 := useCallback same1 (m_checkbox c)
              (checkbox (values s) u1.1) (values s) in
  let u5 := useCallback same1 (m_select c) (select (values s) u1.1) (values s) in
  let u6 := useCallback same1 (m_validate c)
              (validate schema_parse (values s)) (values s) in
  let u7 := useCallback same1 (m_reset c) (reset o) o in
  let u8 := useMemo same2 (m_dirty c) (dirty o (values s)) (values s, o)
              (next s) in
  let u9 := useMemo same1 (m_isDirty c) (λ n, (isDirty u8.1.1, n)) u8.1.1
              u8.2 in
  (Form (values s) (errors s) (touched s) u8.1.1 u9.1.1
        u2.1 u3.1 u4.1 u5.1 u1.1 u6.1 u7.1,
   HookState (Store (values s) (errors s) (touched s) u9.2)
             (Memo u1.2 u2.2 u3.2 u4.2 u5.2 u6.2 u7.2 u8.1.2 u9.1.2)).
Proof.
  unfold useSimpleFormState. cbv zeta.
  destruct (useCallback same0 _ _ _) as [x1 c1]. simpl.
  destruct (useCallback same1 (m_text _) _ _) as [x2 c2].
  destruct (useCallback same1 (m_number _) _ _) as [x3 c3].
  destruct (useCallback same1 (m_checkbox _) _ _) as [x4 c4].
  destruct (useCallback same1 (m_select _) _ _) as [x5 c5].
  destruct (useCallback same1 (m_validate _) _ _) as [x6 c6].
  destruct (useCallback same1 (m_reset _) _ _) as [x7 c7].
  destruct (useMemo same2 _ _ _ _) as [[x8 c8] n8]. simpl.
  destruct (useMemo same1 _ _ _ _) as [[x9 c9] n9]. reflexivity.
Qed.

(** What a render of a shaped hook returns, whatever the options. *)
Lemma render_with o h :
  shaped h →
  let f := (render o Number h).1 in
  let h' := (render o Number h).2 in
  shaped h' ∧ callbacks_shaped f ∧
  f_values f = values (hk_store h) ∧
  values (hk_store h') = values (hk_store h) ∧
  errors (hk_store h') = errors (hk_store h) ∧
  touched (hk_store h') = touched (hk_store h) ∧
  next (hk_store h) ≤ next (hk_store h') ∧
  oid (f_dirty f) < next (hk_store h') ∧
  (∃ v o', m_dirty (hk_memo h') = Some ((v, o'), f_dirty f) ∧
           oid v = oid (values (hk_store h)) ∧ oid o' = oid o) ∧
  (∃ d, m_isDirty (hk_memo h') = Some (d, f_isDirty f) ∧
        oid d = oid (f_dirty f)).
Proof.
  intros (Hset & Htext & Hnumber & Hcheckbox & Hselect & Hvalidate & Hreset
          & Hdirty & Hvalues).
  rewrite render_unfold. cbv zeta.
  destruct h as [s c]. cbn [hk_store hk_memo] in *.
  destruct (useCallback_spec same0 (m_setFieldValue c) setFieldValue tt)
    as (d1 & a1 & -> & H1).
  assert (a1 = setFieldValue) as ->.
  { destruct H1 as [[H1 _]|[_ ->]]; [by eapply Hset|done]. }
  cbn [fst snd].
  destruct (useCallback_spec same1 (m_text c)
              (text (values s) setFieldValue) (values s))
    as (d2 & a2 & -> & H2).
  destruct (useCallback_spec same1 (m_number c)
              (number Number (values s) setFieldValue) (values s))
    as (d3 & a3 & -> & H3).
  destruct (useCallback_spec same1 (m_checkbox c)
              (checkbox (values s) setFieldValue) (values s))
    as (d4 & a4 & -> & H4).
  destruct (useCallback_spec same1 (m_select c)
              (select (values s) setFieldValue) (values s))
    as (d5 & a5 & -> & H5).
  destruct (useCallback_spec same1 (m_validate c)
              (validate schema_parse (values s)) (values s))
    as (d6 & a6 & -> & H6).
  destruct (useCallback_spec same1 (m_reset c) (reset o) o)
    as (d7 & a7 & -> & H7).
  cbn [fst snd].
  assert (a2 = text d2 setFieldValue) as ->.
  { destruct H2 as [[H2 _]|[-> ->]]; [by eapply Htext|done]. }
  assert (a3 = number Number d3 setFieldValue) as ->.
  { destruct H3 as [[H3 _]|[-> ->]]; [by eapply Hnumber|done]. }
  assert (a4 = checkbox d4 setFieldValue) as ->.
  { destruct H4 as [[H4 _]|[-> ->]]; [by eapply Hcheckbox|done]. }
  assert (a5 = select d5 setFieldValue) as ->.
  { destruct H5 as [[H5 _]|[-> ->]]; [by eapply Hselect|done]. }
  assert (a6 = validate schema_parse d6) as ->.
  { destruct H6 as [[H6 _]|[-> ->]]; [by eapply Hvalidate|done]. }
  assert (a7 = reset d7) as ->.
  { destruct H7 as [[H7 _]|[-> ->]]; [by eapply Hreset|done]. }
  clear H1 H2 H3 H4 H5 H6 H7.
  destruct (useMemo_spec same2 (m_dirty c) (dirty o (values s))
              (values s, o) (next s))
    as [([v o'] & r & Hcell & Hsame & ->)|(_ & ->)].
  - (* the [dirty] object is the kept one *)
    apply andb_true_iff in Hsame as [Hv Ho].
    apply bool_decide_eq_true in Hv, Ho. cbn [fst snd] in *.
    assert (oid r < next s) as Hr by by eapply Hdirty.
    destruct (useMemo_spec same1 (m_isDirty c) (λ n, (isDirty r, n)) r (next s))
      as [(d & b & Hcell' & Hsame' & ->)|(_ & ->)]; cbn [fst snd].
    + apply bool_decide_eq_true in Hsame'.
      split.
      { unfold Hook.shaped. cbn [hk_memo hk_store m_setFieldValue m_text
          m_number m_checkbox m_select m_validate m_reset m_dirty next values].
        repeat (split; [by intros ?? [= <- <-]|]).
        split; [|done]. intros d0 r0. rewrite Hcell. by intros [= <- <-]. }
      split; [unfold Hook.callbacks_shaped; simpl; repeat split; by eexists|].
      simpl. split_and!; try done; try lia; [by eexists _, _|by eexists].
    + split.
      { unfold Hook.shaped. cbn [hk_memo hk_store m_setFieldValue m_text
          m_number m_checkbox m_select m_validate m_reset m_dirty next values].
        repeat (split; [by intros ?? [= <- <-]|]).
        split; [|done]. intros d0 r0. rewrite Hcell. by intros [= <- <-]. }
      split; [unfold Hook.callbacks_shaped; simpl; repeat split; by eexists|].
      simpl. split_and!; try done; try lia; [by eexists _, _|by eexists].
  - (* the [dirty] object is a new one *)
    cbn [dirty new_object fst snd].
    set (r := JsObj (next s) (dirty_flags o (values s))).
    destruct (useMemo_spec same1 (m_isDirty c) (λ n, (isDirty r, n)) r
                (S (next s)))
      as [(d & b & Hcell' & Hsame' & ->)|(_ & ->)]; cbn [fst snd].
    + apply bool_decide_eq_true in Hsame'.
      split.
      { unfold Hook.shaped. cbn [hk_memo hk_store m_setFieldValue m_text
          m_number m_checkbox m_select m_validate m_reset m_dirty next values].
        repeat (split; [by intros ?? [= <- <-]|]).
        split; [|lia]. intros d0 r0. intros [= <- <-]. simpl. lia. }
      split; [unfold Hook.callbacks_shaped; simpl; repeat split; by eexists|].
      simpl. split_and!; try done; try lia; [by eexists _, _|by eexists].
    + split.
      { unfold Hook.shaped. cbn [hk_memo hk_store m_setFieldValue m_text
          m_number m_checkbox m_select m_validate m_reset m_dirty next values].
        repeat (split; [by intros ?? [= <- <-]|]).
        split; [|lia]. intros d0 r0. intros [= <- <-]. simpl. lia. }
      split; [unfold Hook.callbacks_shaped; simpl; repeat split; by eexists|].
      simpl. split_and!; try done; try lia; [by eexists _, _|by eexists].
Qed.

(** An event on a rendered form only allocates, and leaves the [values]
    object below the allocation pointer; [validate] leaves [values],
    [touched] and the allocation pointer as they are. *)
Lemma dispatch_with f e s :
  callbacks_shaped f →
  oid (values s) < next s →
  next s ≤ next (dispatch f e s).2 ∧
  oid (values (dispatch f e s).2) < next (dispatch f e s).2 ∧
  (e = Validate →
   values (dispatch f e s).2 = values s ∧
   touched (dispatch f e s).2 = touched s ∧
   next (dispatch f e s).2 = next s) ∧
  (∀ name v, e = SetFieldValue name v →
   oid (values (dispatch f e s).2) = next s).
Proof.
  intros (Hset & (dt & Htext) & (dn & Hnumber) & (dc & Hcheckbox)
          & (ds & Hselect) & (dv & Hvalidate) & (dr & Hreset)) Hvalues.
  destruct e as [name v| | |name input|name input|name checked|name input];
    simpl.
  - rewrite Hset, setFieldValue_run. simpl.
    split_and!; try done; lia.
  - rewrite Hvalidate. unfold mbind, M_bind. rewrite validate_run.
    destruct (schema_parse dv) as [?|[?|?]]; simpl; split_and!; done.
  - rewrite Hreset, reset_run. simpl.
    pose proof (reaches_bound (oid dr) (to_value dr) (reaches_obj _ _)).
    split_and!; try done; lia.
  - rewrite Htext. unfold text. destruct (_ && _); simpl;
      split_and!; try done; lia.
  - rewrite Hnumber. unfold number. destruct (_ && _); simpl;
      split_and!; try done; lia.
  - rewrite Hcheckbox. unfold checkbox. destruct (_ && _); simpl;
      split_and!; try done; lia.
  - rewrite Hselect. simpl. split_and!; try done; lia.
Qed.

Lemma shaped_mount o : shaped (mount o).
Proof.
  unfold Hook.shaped, mount. simpl. split_and!; try done.
  pose proof (reaches_bound (oid o) (to_value o) (reaches_obj _ _)). lia.
Qed.

Lemma shaped_step o h e : shaped h → shaped (step schema_parse o Number h e).
Proof.
  intros Hh. unfold step.
  destruct (render_with o h Hh)
    as (Hh' & Hf & _ & _ & _ & _ & _ & _ & _ & _).
  destruct (render o Number h) as [f h']. cbn [fst snd] in *.
  destruct Hh' as (Hset & Htext & Hnumber & Hcheckbox & Hselect & Hvalidate
                   & Hreset & Hdirty & Hvalues).
  destruct (dispatch_with f e (hk_store h') Hf Hvalues) as (Hnext & Hv & _).
  unfold Hook.shaped. cbn [hk_memo hk_store].
  split_and!; try done.
  intros d r Hcell. specialize (Hdirty d r Hcell). lia.
Qed.

Lemma shaped_receive o h : shaped h → shaped (receive o h).
Proof.
  intros (Hset & Htext & Hnumber & Hcheckbox & Hselect & Hvalidate & Hreset
          & Hdirty & Hvalues).
  unfold Hook.shaped, receive. cbn [hk_memo hk_store next values].
  split_and!; try done; [|lia].
  intros d r Hcell. specialize (Hdirty d r Hcell). lia.
Qed.

Lemma run_with_snoc o steps e o' :
  run_with o (steps ++ [(e, o')]) =
  (receive o'
     (step schema_parse (run_with o steps).2 Number (run_with o steps).1 e),
   o').
Proof. unfold Hook.run_with. by rewrite foldl_app. Qed.

(** Every hook of a session is shaped, whatever options the component
    passes. *)
Lemma shaped_run_with o steps : shaped (run_with o steps).1.
Proof.
  induction steps as [|[e o'] steps IH] using rev_ind.
  - apply shaped_mount.
  - rewrite run_with_snoc. by apply shaped_receive, shaped_step.
Qed.

(** A component that keeps its options object runs the session [run]. *)
Lemma run_with_same o es :
  run_with o ((λ e, (e, o)) <$> es) = (run schema_parse o Number es, o).
Proof.
  induction es as [|e es IH] using rev_ind; [done|].
  rewrite fmap_app. simpl. rewrite run_with_snoc, IH. simpl.
  rewrite <- run_snoc. f_equal.
  destruct (coherent_run schema_parse o Number (es ++ [e])) as (_ & Hbound & _).
  unfold receive.
  destruct (run schema_parse o Number (es ++ [e])) as [[v er t n] c].
  simpl in *. do 2 f_equal. lia.
Qed.

(** The two cases of a [useMemo] on a cell that holds a result. *)
Lemma useMemo_same {D A} (same : D → D → bool) d (a : A) factory deps n :
  same d deps = true →
  useMemo same (Some (d, a)) factory deps n = ((a, Some (d, a)), n).
Proof. intros Hsame. unfold useMemo. by rewrite Hsame. Qed.

Lemma useMemo_other {D A} (same : D → D → bool) d (a : A) factory deps n :
  same d deps = false →
  useMemo same (Some (d, a)) factory deps n =
    (((factory n).1, Some (deps, (factory n).1)), (factory n).2).
Proof.
  intros Hsame. unfold useMemo. rewrite Hsame. by destruct (factory n).
Qed.

(** The [dirty] and [isDirty] of a render, from the cells the previous
    render left. *)
Lemma render_dirty o h :
  let u := useMemo same2 (m_dirty (hk_memo h)) (dirty o (values (hk_store h)))
             (values (hk_store h), o) (next (hk_store h)) in
  f_values (render o Number h).1 = values (hk_store h) ∧
  f_dirty (render o Number h).1 = u.1.1 ∧
  f_isDirty (render o Number h).1 =
    (useMemo same1 (m_isDirty (hk_memo h)) (λ n, (isDirty u.1.1, n)) u.1.1
       u.2).1.1.
Proof. by rewrite render_unfold. Qed.

(** *** Sessions whose options are honest *)

(** A render with the options [o] of a hook whose last render had the
    options [previous]: the memo cells are transparent. *)
Lemma render_tracked previous o h :
  tracked previous h →
  (oid o = oid previous → o = previous) →
  ∃ d n,
    render o Number h =
      (form_of schema_parse o Number (hk_store h) d,
       HookState (Store (values (hk_store h)) (errors (hk_store h))
                        (touched (hk_store h)) n)
                 (rendered schema_parse o Number (values (hk_store h)) d)) ∧
    props d = dirty_flags o (values (hk_store h)) ∧
    oid d < n ∧ next (hk_store h) ≤ n.
Proof.
  destruct h as [s c]. unfold Hook.tracked. cbn [hk_store hk_memo].
  intros (Hv & [->|(v & d & -> & Hv0 & Hd & Hflags & Hsame)]) Hhonest.
  - eexists _, _. split; [apply render_unrendered|]. simpl. split; [done|lia].
  - destruct (decide (oid o = oid previous)) as [Heq|Hne].
    + specialize (Hhonest Heq). subst previous. by apply render_rendered.
    + exists (JsObj (next s) (dirty_flags o (values s))), (S (next s)).
      split; [|simpl; split; [done|lia]].
      destruct (decide (oid v = oid (values s))) as [Heq|Hne'].
      * specialize (Hsame Heq). subst v.
        unfold Hook.useSimpleFormState, Hook.rendered, useCallback, useMemo,
          same0, same1, same2, Object_is. simpl.
        rewrite !(bool_decide_true (oid (values s) = _)) by done.
        rewrite !(bool_decide_false (oid previous = _)) by done. simpl.
        rewrite (bool_decide_false (oid d = _)) by lia. reflexivity.
      * unfold Hook.useSimpleFormState, Hook.rendered, useCallback, useMemo,
          same0, same1, same2, Object_is. simpl.
        rewrite !(bool_decide_false (oid v = _)) by done.
        rewrite !(bool_decide_false (oid previous = _)) by done. simpl.
        rewrite (bool_decide_false (oid d = _)) by lia. reflexivity.
Qed.

Lemma tracked_mount o : tracked o (mount o).
Proof.
  unfold Hook.tracked, mount. simpl. split; [|by left].
  pose proof (reaches_bound (oid o) (to_value o) (reaches_obj _ _)). lia.
Qed.

Lemma tracked_step previous o h e :
  tracked previous h →
  (oid o = oid previous → o = previous) →
  tracked o (step schema_parse o Number h e).
Proof.
  intros Hh Hhonest.
  destruct (render_tracked previous o h Hh Hhonest)
    as (d & n & Hrender & Hd & Hdn & Hn).
  unfold step. rewrite Hrender. cbn [hk_store hk_memo].
  destruct Hh as (Hv & _).
  set (s1 := Store _ _ _ n).
  destruct (dispatch_alloc schema_parse o Number (hk_store h) d e s1)
    as (Hnext & Hv' & Hsame).
  { simpl. lia. }
  unfold Hook.tracked. cbn [hk_store hk_memo]. simpl in *.
  split; [done|]. right.
  exists (values (hk_store h)), d.
  split; [done|]. split; [lia|]. split; [lia|]. split; [done|].
  intros Hid. destruct Hsame as [->|Hfresh]; [done|]. lia.
Qed.

Lemma tracked_receive previous o h :
  tracked previous h → tracked previous (receive o h).
Proof.
  intros (Hv & Hmemo). unfold Hook.tracked, receive.
  cbn [hk_store hk_memo values next]. split; [lia|].
  destruct Hmemo as [->|(v & d & -> & Hv0 & Hd & Hflags & Hsame)]; [by left|].
  right. exists v, d. split_and!; try done; lia.
Qed.

(** Every hook of an honest session is tracked, by the options of its
    last render, and the allocation pointer is past the options of the
    coming one. *)
Lemma tracked_run_with o steps :
  honest (o :: steps.*2) →
  (run_with o steps).2 ∈ o :: steps.*2 ∧
  bound (to_value (run_with o steps).2) ≤ next (hk_store (run_with o steps).1) ∧
  ∃ previous, previous ∈ o :: steps.*2 ∧
              tracked previous (run_with o steps).1.
Proof.
  induction steps as [|[e o'] steps IH] using rev_ind; intros Hhonest.
  - split; [left|]. split; [done|].
    exists o. split; [left|]. apply tracked_mount.
  - rewrite fmap_app in Hhonest. simpl in Hhonest. rewrite fmap_app. simpl.
    assert (honest (o :: steps.*2)) as Hless.
    { intros o1 o2 H1 H2. apply Hhonest.
      - rewrite app_comm_cons. apply elem_of_app. by left.
      - rewrite app_comm_cons. apply elem_of_app. by left. }
    destruct (IH Hless) as (Hcurrent & _ & previous & Hprevious & Hh).
    rewrite run_with_snoc. cbn [fst snd].
    split.
    { rewrite app_comm_cons. apply elem_of_app. right. left. }
    split; [simpl; lia|].
    exists (run_with o steps).2. split.
    { rewrite app_comm_cons. apply elem_of_app. by left. }
    apply tracked_receive.
    eapply tracked_step; [exact Hh|].
    apply Hhonest.
    + rewrite app_comm_cons. apply elem_of_app. by left.
    + rewrite app_comm_cons. apply elem_of_app. by left.
Qed.

(** In an honest session the form of a render is the one computed from
    the cells and from the options of that render. *)
Lemma view_with_spec o steps :
  honest (o :: steps.*2) →
  ∃ d, view_with o steps =
         form_of schema_parse (run_with o steps).2 Number
           (state_with o steps) d ∧
       props d = dirty_flags (run_with o steps).2 (values (state_with o steps)) ∧
       values (state_with o steps) = values (hk_store (run_with o steps).1) ∧
       errors (state_with o steps) = errors (hk_store (run_with o steps).1) ∧
       touched (state_with o steps) = touched (hk_store (run_with o steps).1) ∧
       bound (to_value (run_with o steps).2) ≤ next (state_with o steps).
Proof.
  intros Hhonest.
  destruct (tracked_run_with o steps Hhonest)
    as (Hcurrent & Hbound & previous & Hprevious & Hh).
  unfold Hook.view_with, Hook.state_with.
  destruct (render_tracked previous (run_with o steps).2 _ Hh)
    as (d & n & -> & Hd & _ & Hn).
  { by apply Hhonest. }
  exists d. split_and!; try done. cbn [snd hk_store next]. lia.
Qed.

(** The cells after one more step. *)
Lemma state_with_snoc o steps e o' :
  honest (o :: (steps ++ [(e, o')]).*2) →
  values (state_with o (steps ++ [(e, o')])) =
    values (dispatch (view_with o steps) e (state_with o steps)).2 ∧
  errors (state_with o (steps ++ [(e, o')])) =
    errors (dispatch (view_with o steps) e (state_with o steps)).2 ∧
  touched (state_with o (steps ++ [(e, o')])) =
    touched (dispatch (view_with o steps) e (state_with o steps)).2.
Proof.
  intros Hhonest.
  destruct (view_with_spec _ _ Hhonest) as (_ & _ & _ & -> & -> & -> & _).
  rewrite run_with_snoc. cbn [fst snd]. unfold step, Hook.view_with,
    Hook.state_with.
  by destruct (render (run_with o steps).2 Number (run_with o steps).1)
    as [f h'].
Qed.

(** A shorter honest session. *)
Lemma honest_init o (steps : list (event * jsobj value)) x :
  honest (o :: (steps ++ [x]).*2) → honest (o :: steps.*2).
Proof.
  intros Hhonest o1 o2 H1 H2. apply Hhonest.
  - rewrite fmap_app, app_comm_cons. apply elem_of_app. by left.
  - rewrite fmap_app, app_comm_cons. apply elem_of_app. by left.
Qed.

(** The render after one more step of an honest session. *)
Lemma view_with_after options steps e options' :
  honest (options :: (steps ++ [(e, options')]).*2) →
  let f := view_with options steps in
  let f' := view_with options (steps ++ [(e, options')]) in
  f_values f' = values (dispatch f e (state_with options steps)).2 ∧
  f_errors f' = errors (dispatch f e (state_with options steps)).2 ∧
  f_touched f' = touched (dispatch f e (state_with options steps)).2 ∧
  props (f_dirty f') = dirty_flags options' (f_values f') ∧
  f_isDirty f' = isDirty (f_dirty f').
Proof.
  intros Hhonest. cbv zeta.
  destruct (state_with_snoc options steps e options' Hhonest)
    as (Hvalues & Herrors & Htouched).
  destruct (view_with_spec options (steps ++ [(e, options')]) Hhonest)
    as (d & Hview & Hd & _).
  rewrite run_with_snoc in Hview, Hd. cbn [fst snd] in Hview, Hd.
  rewrite Hview. cbn [form_of f_values f_errors f_touched f_dirty f_isDirty].
  done.
Qed.

End Sessions.
End SessionFacts.

(* ===================================================================== *)
(** ** More of the hook's behaviour *)
(* ===================================================================== *)

Module FormMore.
Import Js React Hook JsFacts HookFacts SessionFacts.

Section Args.

Context (schema_parse : jsobj value → outcome value).
Context (initialValues : jsobj value).
Context (Number : string → num).

#[local] Abbreviation view := (Hook.view schema_parse initialValues Number).
#[local] Abbreviation state := (Hook.state schema_parse initialValues Number).

(** X1. The first render: [values] is the object [initialValues] itself
    (not a copy), [errors] and [touched] are empty, [dirty] has the keys
    of [initialValues], all [false], and [isDirty] is [false]. The one key
    of [initialValues] that [dirty] cannot have is [__proto__], which the
    assignment of the loop does not create. *)
Theorem initial_render :
  f_values (view []) = initialValues ∧
  f_errors (view []) = ∅ ∧
  f_touched (view []) = ∅ ∧
  (∀ k, props (f_dirty (view [])) !! k =
        if bool_decide (k = "__proto__") then None
        else (λ _, false) <$> props initialValues !! k) ∧
  f_isDirty (view []) = false.
Proof.
  assert (∀ k, dirty_flags initialValues initialValues !! k =
               if bool_decide (k = "__proto__") then None
               else (λ _, false) <$> props initialValues !! k) as Hflags.
  { intros k. rewrite dirty_flags_lookup. case_bool_decide; [done|].
    unfold get.
    destruct (props initialValues !! k) as [x|]; simpl; [|done].
    by rewrite equal_erase. }
  destruct (view_mount schema_parse initialValues Number)
    as (Hvalues & Herrors & Htouched & Hdirty & _).
  destruct (view_dirty schema_parse initialValues Number []) as (_ & Hany).
  rewrite Hany, Hdirty. simpl.
  repeat (split; [done|]).
  destruct (isDirty _) eqn:Hd; [|done].
  apply isDirty_true in Hd as (k & Hk). simpl in Hk. rewrite Hflags in Hk.
  case_bool_decide; [done|].
  by destruct (props initialValues !! k).
Qed.

(** X2. The change handler of a text binding stores the string of the
    event as it is and marks the field touched, and the text binding of
    the next render shows that string. *)
Theorem text_change_round_trip es name input p :
  bind_text (view es) name = Return p →
  p_onChange p input = setFieldValue name (VStr input) ∧
  props (f_values (view (es ++ [TextChange name input]))) !! name
    = Some (VStr input) ∧
  f_touched (view (es ++ [TextChange name input])) !! name = Some true ∧
  ∃ p', bind_text (view (es ++ [TextChange name input])) name = Return p' ∧
        p_name p' = name ∧ p_value p' = VStr input.
Proof.
  intros Hp.
  destruct (view_bindings schema_parse initialValues Number es) as (Htext & _).
  assert (p_onChange p input = setFieldValue name (VStr input)) as Hchange.
  { rewrite Htext in Hp. unfold text in Hp.
    destruct (_ && _); [done|]. by injection Hp as <-. }
  destruct (view_after_set schema_parse initialValues Number es
              (TextChange name input) name (VStr input))
    as (Hvalues & _ & Htouched).
  { simpl. rewrite Hp. simpl. by rewrite Hchange. }
  assert (props (f_values (view (es ++ [TextChange name input]))) !! name
          = Some (VStr input)) as Hname
    by by rewrite Hvalues, lookup_insert_eq.
  split; [done|]. split; [done|].
  split; [by rewrite Htouched, lookup_insert_eq|].
  destruct (view_bindings schema_parse initialValues Number
              (es ++ [TextChange name input])) as (-> & _).
  unfold text, get. rewrite Hname. simpl. by eexists.
Qed.

(** X3. The number binding of a field whose value [values[name]] is
    neither [null] nor [undefined] and not a number throws a type-mismatch
    error. When [values[name]] is [null] or [undefined] it returns props
    whose [value] is the empty string; this is the case of an absent field
    unless its name is a member of [Object.prototype], which reads the
    inherited member and throws. On a number, [NaN] included, the props
    show the number. *)
Theorem number_binding_spec es name :
  let f := view es in
  let r := get (f_values f) name in
  (not_nullish r = true → typeof r ≠ TNumber →
     bind_number f name =
     Throw (OtherError
       ("useSimpleFormState.number(): field '" ++ name ++ "' is not a number"))) ∧
  (r = VNull ∨ r = VUndefined →
     ∃ p, bind_number f name = Return p ∧
          p_name p = name ∧ p_value p = VStr "") ∧
  (props (f_values f) !! name = None →
     name ≠ "__proto__" → name ∉ Object_prototype_functions →
     ∃ p, bind_number f name = Return p ∧
          p_name p = name ∧ p_value p = VStr "") ∧
  (props (f_values f) !! name = None →
     name = "__proto__" ∨ name ∈ Object_prototype_functions →
     bind_number f name =
     Throw (OtherError
       ("useSimpleFormState.number(): field '" ++ name ++ "' is not a number"))) ∧
  (∀ n, r = VNum n →
     ∃ p, bind_number f name = Return p ∧ p_name p = name ∧ p_value p = VNum n).
Proof.
  destruct (view_bindings schema_parse initialValues Number es)
    as (_ & Hnumber & _).
  cbv zeta. rewrite Hnumber. unfold number.
  split; [|split; [|split; [|split]]].
  - intros -> Htype. by rewrite bool_decide_false.
  - intros [->| ->]; (eexists; split; [done|]; done).
  - intros Hnone Hproto Hfun. unfold get. rewrite Hnone.
    rewrite bool_decide_false by done. rewrite bool_decide_false by done.
    eexists. split; [done|]. done.
  - intros Hnone Hname. unfold get. rewrite Hnone.
    destruct Hname as [->|Hfun]; [done|].
    case_bool_decide; [done|]. by rewrite bool_decide_true.
  - intros n ->. eexists. split; [done|]. done.
Qed.

(** X4. After a change event on a number binding, the number binding of
    the next render does not throw: it shows the empty string after an
    empty input (stored as [null]) and [Number(input)] after any other
    input, also when that is [NaN]. *)
Theorem number_change_round_trip es name input p :
  bind_number (view es) name = Return p →
  ∃ p', bind_number (view (es ++ [NumberChange name input])) name = Return p' ∧
        p_name p' = name ∧
        p_value p' =
          if bool_decide (input = "") then VStr "" else VNum (Number input).
Proof.
  intros Hp.
  destruct (view_bindings schema_parse initialValues Number es)
    as (_ & Hnumber & _).
  destruct (view_after_set schema_parse initialValues Number es
              (NumberChange name input) name
              (if bool_decide (input = "") then VNull else VNum (Number input)))
    as (Hvalues & _ & _).
  { simpl. rewrite Hp. simpl. rewrite Hnumber in Hp. unfold number in Hp.
    destruct (_ && _); [done|]. by injection Hp as <-. }
  destruct (view_bindings schema_parse initialValues Number
              (es ++ [NumberChange name input])) as (_ & -> & _).
  unfold number, get. rewrite Hvalues, lookup_insert_eq. simpl.
  destruct (bool_decide (input = "")); simpl; by eexists.
Qed.

(** X5. The select binding makes no type check and never throws: its
    props show what [values[name]] reads, whatever its type, or the empty
    string when that is [null] or [undefined]. An absent field reads
    [undefined] and shows the empty string, unless its name is a member of
    [Object.prototype]: the props then hold the inherited member. The
    change handler stores the string of the event and marks the field
    touched. *)
Theorem select_binding_spec es name :
  let r := get (f_values (view es)) name in
  ∃ p, bind_select (view es) name = Return p ∧
       p_name p = name ∧
       (not_nullish r = true → p_value p = r) ∧
       (not_nullish r = false → p_value p = VStr "") ∧
       (props (f_values (view es)) !! name = None →
          p_value p =
            if bool_decide (name = "__proto__") then ObjectPrototype
            else if bool_decide (name ∈ Object_prototype_functions)
                 then Builtin name
                 else VStr "") ∧
       ∀ input,
         p_onChange p input = setFieldValue name (VStr input) ∧
         props (f_values (view (es ++ [SelectChange name input]))) !! name
           = Some (VStr input) ∧
         f_touched (view (es ++ [SelectChange name input])) !! name = Some true.
Proof.
  destruct (view_bindings schema_parse initialValues Number es)
    as (_ & _ & _ & Hselect).
  cbv zeta. rewrite Hselect. unfold select. eexists. split; [done|]. simpl.
  split; [done|]. unfold nullish_or.
  split; [by intros ->|]. split; [by intros ->|].
  split.
  { intros Hnone. unfold get. rewrite Hnone.
    case_bool_decide; [done|]. by case_bool_decide. }
  intros input. split; [done|].
  destruct (view_after_set schema_parse initialValues Number es
              (SelectChange name input) name (VStr input))
    as (Hvalues & _ & Htouched).
  { simpl. by rewrite Hselect. }
  by rewrite Hvalues, Htouched, !lookup_insert_eq.
Qed.

(** X6. After [setFieldValue(name, v)], for a name other than
    [__proto__], [dirty[name]] is the negation of
    [isEqual(v, initialValues[name])], where [initialValues[name]] is read
    as JavaScript reads it, and the flags of the other fields are what
    they were. Writing back a value with the contents of the initial one
    makes the field clean again, and [isDirty] then tells whether another
    field is dirty. A field that [initialValues] does not have and whose
    name is a function of [Object.prototype] is dirty whatever is written:
    the value is compared with the inherited function. *)
Theorem dirty_after_setFieldValue es name v :
  name ≠ "__proto__" →
  let f := view es in
  let f' := view (es ++ [SetFieldValue name v]) in
  props (f_dirty f') !! name =
    Some (negb (isEqual v (get initialValues name))) ∧
  (∀ other, other ≠ name →
     props (f_dirty f') !! other = props (f_dirty f) !! other) ∧
  (∀ w, props initialValues !! name = Some w → contents v = contents w →
     props (f_dirty f') !! name = Some false ∧
     (f_isDirty f' = true ↔
      ∃ other, other ≠ name ∧ props (f_dirty f) !! other = Some true)) ∧
  (props initialValues !! name = None →
     name ∈ Object_prototype_functions →
     props (f_dirty f') !! name = Some true).
Proof.
  intros Hproto.
  destruct (view_after_set schema_parse initialValues Number es
              (SetFieldValue name v) name v) as (Hvalues & _ & _).
  { simpl.
    by destruct (view_callbacks schema_parse initialValues Number es)
      as (-> & _). }
  destruct (view_dirty schema_parse initialValues Number es) as (Hd & _).
  destruct (view_dirty schema_parse initialValues Number
              (es ++ [SetFieldValue name v])) as (Hd' & Hany').
  cbv zeta.
  assert (props (f_dirty (view (es ++ [SetFieldValue name v]))) !! name =
          Some (negb (isEqual v (get initialValues name)))) as Hname.
  { rewrite Hd', dirty_flags_lookup, Hvalues, lookup_insert_eq.
    by rewrite bool_decide_false. }
  assert (∀ other, other ≠ name →
          props (f_dirty (view (es ++ [SetFieldValue name v]))) !! other =
          props (f_dirty (view es)) !! other) as Hother.
  { intros other Hne.
    by rewrite Hd', Hd, !dirty_flags_lookup, Hvalues, lookup_insert_ne. }
  split; [done|]. split; [done|]. split.
  - intros w Hw Hsame.
    assert (isEqual v (get initialValues name) = true) as Hclean.
    { unfold get. rewrite Hw. by apply equal_contents. }
    rewrite Hname, Hclean. split; [done|].
    rewrite Hany', isDirty_true. split.
    + intros (k & Hk). destruct (decide (k = name)) as [->|Hne].
      * rewrite Hname, Hclean in Hk. done.
      * exists k. split; [done|]. by rewrite <- Hother.
    + intros (k & Hne & Hk). exists k. by rewrite Hother.
  - intros Hnone Hfun. rewrite Hname. unfold get. rewrite Hnone.
    rewrite bool_decide_false by done. by rewrite bool_decide_true.
Qed.

(** X7. A touched flag is never [false]: a field is touched or has no
    flag. A touched field stays touched through every event but
    [reset]. *)
Theorem touched_monotone es :
  (∀ name flag, f_touched (view es) !! name = Some flag → flag = true) ∧
  (∀ e name, e ≠ Reset →
     f_touched (view es) !! name = Some true →
     f_touched (view (es ++ [e])) !! name = Some true).
Proof.
  split.
  - induction es as [|e es IH] using rev_ind; intros name flag Hflag.
    + destruct (view_mount schema_parse initialValues Number)
        as (_ & _ & Ht & _).
      by rewrite Ht, lookup_empty in Hflag.
    + pose proof (view_after_event schema_parse initialValues Number es e) as He.
      destruct e;
        try (destruct He as [(_ & _ & Ht)|(name' & v' & _ & _ & _ & Ht)];
             rewrite Ht in Hflag;
             [by eapply IH
             |destruct (decide (name' = name)) as [->|Hne];
              [rewrite lookup_insert_eq in Hflag; congruence
              |rewrite lookup_insert_ne in Hflag by done; by eapply IH]]).
      * destruct He as (_ & Ht & _). rewrite Ht in Hflag. by eapply IH.
      * destruct He as (_ & _ & Ht). by rewrite Ht, lookup_empty in Hflag.
  - intros e name Hreset Hname.
    pose proof (view_after_event schema_parse initialValues Number es e) as He.
    destruct e; try done;
      try (destruct He as [(_ & _ & Ht)|(name' & v' & _ & _ & _ & Ht)];
           rewrite Ht; [done|];
           destruct (decide (name' = name)) as [->|Hne];
           [by rewrite lookup_insert_eq|by rewrite lookup_insert_ne]).
    destruct He as (_ & Ht & _). by rewrite Ht.
Qed.

(** X8. Every touched field was written: some event of the session
    called [setFieldValue] on it. *)
Theorem touched_was_written es name flag :
  f_touched (view es) !! name = Some flag →
  ∃ e, e ∈ es ∧ target e = Some name.
Proof.
  revert flag. induction es as [|e es IH] using rev_ind; intros flag Hflag.
  - destruct (view_mount schema_parse initialValues Number)
        as (_ & _ & Ht & _).
    by rewrite Ht, lookup_empty in Hflag.
  - assert (f_touched (view es) !! name = Some flag →
            ∃ e0, e0 ∈ es ++ [e] ∧ target e0 = Some name) as Hold.
    { intros H. destruct (IH _ H) as (e0 & He0 & Ht0).
      exists e0. split; [|done]. apply elem_of_app. by left. }
    pose proof (view_after_event schema_parse initialValues Number es e) as He.
    destruct e;
      try (destruct He as [(_ & _ & Ht)|(name' & v' & Htarget & _ & _ & Ht)];
           rewrite Ht in Hflag; [by apply Hold|];
           destruct (decide (name' = name)) as [->|Hne];
           [eexists; split; [apply elem_of_app; right; apply list_elem_of_singleton; done|done]
           |rewrite lookup_insert_ne in Hflag by done; by apply Hold]).
    + destruct He as (_ & Ht & _). rewrite Ht in Hflag. by apply Hold.
    + destruct He as (_ & _ & Ht). by rewrite Ht, lookup_empty in Hflag.
Qed.

(** X9. Only [validate] and [reset] write [errors]: every other event,
    the change handlers of the bindings included, leaves [errors] as it
    is, and [errors] is empty as long as [validate] was not called. *)
Theorem errors_frozen es :
  (∀ e, e ≠ Validate → e ≠ Reset →
     f_errors (view (es ++ [e])) = f_errors (view es)) ∧
  (Forall (λ e, e ≠ Validate) es → f_errors (view es) = ∅).
Proof.
  assert (∀ es' e, e ≠ Validate → e ≠ Reset →
            f_errors (view (es' ++ [e])) = f_errors (view es')) as Hfrozen.
  { intros es' e Hv Hr.
    pose proof (view_after_event schema_parse initialValues Number es' e) as He.
    destruct e; try done;
      by destruct He as [(_ & He & _)|(name' & v' & _ & _ & He & _)]. }
  split; [apply Hfrozen|].
  induction es as [|e es IH] using rev_ind; intros Hes.
  - by destruct (view_mount schema_parse initialValues Number) as (_ & He & _).
  - apply Forall_app in Hes as (Hes & He). apply Forall_inv in He.
    destruct e; try done; try (rewrite Hfrozen by done; by apply IH).
    by destruct (view_after_event schema_parse initialValues Number es Reset)
      as (_ & Herr & _).
Qed.

(** X10. Two writes compose as on a map: a second [setFieldValue] on
    the same field wins, and writes to two different fields give the same
    [values] and [touched] in either order. *)
Theorem setFieldValue_compose es name v w other :
  (props (f_values (view (es ++ [SetFieldValue name v; SetFieldValue name w])))
   = props (f_values (view (es ++ [SetFieldValue name w]))) ∧
   f_touched (view (es ++ [SetFieldValue name v; SetFieldValue name w]))
   = f_touched (view (es ++ [SetFieldValue name w]))) ∧
  (name ≠ other →
   props (f_values (view (es ++ [SetFieldValue name v; SetFieldValue other w])))
   = props (f_values (view (es ++ [SetFieldValue other w; SetFieldValue name v]))) ∧
   f_touched (view (es ++ [SetFieldValue name v; SetFieldValue other w]))
   = f_touched (view (es ++ [SetFieldValue other w; SetFieldValue name v]))).
Proof.
  assert (∀ es' n x,
    props (f_values (view (es' ++ [SetFieldValue n x]))) =
      <[n := x]> (props (f_values (view es'))) ∧
    f_touched (view (es' ++ [SetFieldValue n x])) =
      <[n := true]> (f_touched (view es'))) as Hset.
  { intros es' n x.
    destruct (view_after_set schema_parse initialValues Number es'
                (SetFieldValue n x) n x) as (Hvalues & _ & Htouched); [|done].
    simpl.
    by destruct (view_callbacks schema_parse initialValues Number es')
      as (-> & _). }
  assert (∀ a b, es ++ [a; b] = (es ++ [a]) ++ [b]) as Hsplit
    by (intros; by rewrite <- (assoc_L (++))).
  rewrite !Hsplit.
  split.
  - destruct (Hset (es ++ [SetFieldValue name v]) name w) as (-> & ->).
    destruct (Hset es name v) as (-> & ->).
    destruct (Hset es name w) as (-> & ->).
    by rewrite !insert_insert_eq.
  - intros Hne.
    destruct (Hset (es ++ [SetFieldValue name v]) other w) as (-> & ->).
    destruct (Hset (es ++ [SetFieldValue other w]) name v) as (-> & ->).
    destruct (Hset es name v) as (-> & ->).
    destruct (Hset es other w) as (-> & ->).
    split; by apply insert_insert_ne.
Qed.

(** X11. [setFieldValue] and [reset] never write into an object they
    were given: [values] becomes a new object, which is neither the
    previous [values] object nor an object of [initialValues].
    [validate] keeps the [values] object. *)
Theorem values_object_identity es :
  (∀ name v,
     oid (f_values (view (es ++ [SetFieldValue name v])))
       ≠ oid (f_values (view es)) ∧
     ¬ reaches (oid (f_values (view (es ++ [SetFieldValue name v]))))
         (to_value initialValues)) ∧
  (oid (f_values (view (es ++ [Reset]))) ≠ oid (f_values (view es)) ∧
   ¬ reaches (oid (f_values (view (es ++ [Reset])))) (to_value initialValues)) ∧
  f_values (view (es ++ [Validate])) = f_values (view es).
Proof.
  destruct (run_snoc_memo schema_parse initialValues Number es Validate)
    as (_ & Hold & _).
  pose proof (state_next schema_parse initialValues Number es) as Hnext.
  assert (∀ l, next (state es) ≤ l → ¬ reaches l (to_value initialValues))
    as Hfresh.
  { intros l Hl Hr. apply reaches_bound in Hr. lia. }
  destruct (view_callbacks schema_parse initialValues Number es)
    as (Hset & _ & Hreset).
  split; [|split].
  - intros name v.
    destruct (view_cells schema_parse initialValues Number
                (es ++ [SetFieldValue name v])) as (-> & _).
    destruct (state_snoc schema_parse initialValues Number es
                (SetFieldValue name v)) as (-> & _).
    simpl. rewrite Hset, setFieldValue_run. simpl.
    split; [lia|]. by apply Hfresh.
  - destruct (view_cells schema_parse initialValues Number (es ++ [Reset]))
      as (-> & _).
    destruct (state_snoc schema_parse initialValues Number es Reset)
      as (-> & _).
    simpl. rewrite Hreset, reset_run. simpl.
    split; [lia|]. apply Hfresh. lia.
  - by destruct (view_after_validate schema_parse initialValues Number es)
      as (-> & _).
Qed.

(** X13. [validate()] never throws: it returns a boolean, [true] exactly
    when [schema.parse] returned. When [errors] has an entry afterwards,
    the call returned [false]. *)
Theorem validate_verdict es :
  (∃ b, (f_validate (view es) (state es)).1 = Return b) ∧
  ((f_validate (view es) (state es)).1 = Return true ↔
   ∃ parsed, schema_parse (f_values (view es)) = Return parsed) ∧
  (f_errors (view (es ++ [Validate])) ≠ ∅ →
   (f_validate (view es) (state es)).1 = Return false).
Proof.
  destruct (view_callbacks schema_parse initialValues Number es)
    as (_ & Hvalidate & _).
  destruct (view_after_validate schema_parse initialValues Number es)
    as (_ & _ & Herrors).
  rewrite Herrors, Hvalidate, validate_run.
  destruct (schema_parse _) as [parsed|[flattenedErrors|message]]; simpl.
  - split; [by exists true|]. split; [|done]. split; [by exists parsed|done].
  - split; [by exists false|]. split; [|done].
    split; [done|]. by intros (parsed & ?).
  - split; [by exists false|]. split; [|done].
    split; [done|]. by intros (parsed & ?).
Qed.

(** X14. [validate] reads the [values] of the render it was created in.
    Called in the same event handler right after [setFieldValue], before
    the next render, it judges the values that were rendered, not the
    value just written: its result and the [errors] it writes are those of
    a call without the write, while [values] and [touched] hold the
    write. *)
Theorem validate_in_same_handler es name v :
  let f := view es in
  let r := (f_setFieldValue f name v;; f_validate f) (state es) in
  r.1 = (f_validate f (state es)).1 ∧
  errors r.2 = errors (f_validate f (state es)).2 ∧
  props (values r.2) = <[name := v]> (props (f_values f)) ∧
  touched r.2 = <[name := true]> (f_touched f).
Proof.
  destruct (view_callbacks schema_parse initialValues Number es)
    as (Hset & Hvalidate & _).
  destruct (view_cells schema_parse initialValues Number es)
    as (Hvalues & _ & Htouched).
  cbv zeta. unfold mbind, M_bind.
  rewrite Hset, Hvalidate, setFieldValue_run, !validate_run, Htouched.
  rewrite Hvalues.
  by destruct (schema_parse _) as [parsed|[flattenedErrors|message]].
Qed.

(** X15. [dirty], field by field, at every render of a session. For a
    key other than [__proto__], [dirty] has a flag exactly when [values]
    has the key, and the flag is the negation of
    [isEqual(values[key], initialValues[key])]. The equality is deep: when
    [initialValues] has the key the flag is [false] as soon as the two
    values have the same contents, in whatever objects, and for two values
    that share no object it is [false] only then. When [initialValues]
    does not have the key, the value is compared with what the read
    returns: a function of [Object.prototype] for such a name, and the
    field is dirty; [undefined] otherwise, and the field is dirty unless
    its value [=== undefined]. [isDirty] tells whether some flag is [true]. *)
Theorem dirty_per_field es :
  let f := view es in
  (∀ k, k ≠ "__proto__" →
     props (f_dirty f) !! k =
       (λ v, negb (isEqual (Data v) (get initialValues k)))
         <$> props (f_values f) !! k) ∧
  (∀ k v w, k ≠ "__proto__" →
     props (f_values f) !! k = Some v → props initialValues !! k = Some w →
     (contents v = contents w → props (f_dirty f) !! k = Some false) ∧
     ((∀ l, reaches l v → ¬ reaches l w) →
      props (f_dirty f) !! k = Some false → contents v = contents w)) ∧
  (∀ k v, k ≠ "__proto__" →
     props (f_values f) !! k = Some v → props initialValues !! k = None →
     props (f_dirty f) !! k =
       Some (if bool_decide (k ∈ Object_prototype_functions) then true
             else negb (strict_eq v VUndefined))) ∧
  (f_isDirty f = true ↔ ∃ k, props (f_dirty f) !! k = Some true).
Proof.
  destruct (view_dirty schema_parse initialValues Number es) as (Hd & Hany).
  cbv zeta.
  assert (∀ k, k ≠ "__proto__" →
     props (f_dirty (view es)) !! k =
       (λ v, negb (isEqual (Data v) (get initialValues k)))
         <$> props (f_values (view es)) !! k) as Hflag.
  { intros k Hk. rewrite Hd, dirty_flags_lookup.
    by rewrite bool_decide_false. }
  split; [done|]. split; [|split].
  - intros k v w Hk Hv Hw. rewrite (Hflag k Hk), Hv. simpl.
    unfold get. rewrite Hw. simpl. split.
    + intros Hsame. by rewrite equal_contents.
    + intros Hapart [= Hequal]. apply negb_false_iff in Hequal.
      by apply equal_sound.
  - intros k v Hk Hv Hw. rewrite (Hflag k Hk), Hv. simpl.
    unfold get. rewrite Hw. rewrite bool_decide_false by done.
    case_bool_decide; [done|]. simpl. by rewrite equal_undefined.
  - rewrite Hany. apply isDirty_true.
Qed.

End Args.

Section Sessions.

Context (schema_parse : jsobj value → outcome value).
Context (Number : string → num).

#[local] Abbreviation render := (useSimpleFormState schema_parse).
#[local] Abbreviation run_with := (Hook.run_with schema_parse Number).
#[local] Abbreviation view_with := (Hook.view_with schema_parse Number).

(** X12. The [dirty] memo follows the identities of [values] and of
    [options.initialValues], in any session, whatever options object the
    component passes at each render. After [validate()], which keeps the
    [values] object: when the next render gets the options object of the
    last one, it returns the very same [dirty] object and the same
    [isDirty]; when it gets another object, as with an object literal
    written in the call, [dirty] is computed again from that object, in a
    new object, and [isDirty] from it. After [setFieldValue], [dirty] is a
    new object in either case. *)
Theorem dirty_memo_identity options steps options' :
  let current := (run_with options steps).2 in
  let f := view_with options steps in
  let f' := view_with options (steps ++ [(Validate, options')]) in
  f_values f' = f_values f ∧
  (oid options' = oid current →
     f_dirty f' = f_dirty f ∧ f_isDirty f' = f_isDirty f) ∧
  (oid options' ≠ oid current →
     oid (f_dirty f') ≠ oid (f_dirty f) ∧
     props (f_dirty f') = dirty_flags options' (f_values f') ∧
     f_isDirty f' = isDirty (f_dirty f')) ∧
  (∀ name v,
     oid (f_dirty (view_with options
                     (steps ++ [(SetFieldValue name v, options')])))
       ≠ oid (f_dirty f)).
Proof.
  cbv zeta.
  assert (∀ e, view_with options (steps ++ [(e, options')]) =
               (render options' Number
                  (receive options'
                     (step schema_parse (run_with options steps).2 Number
                        (run_with options steps).1 e))).1) as Hview.
  { intros e. unfold Hook.view_with.
    by rewrite (run_with_snoc schema_parse Number). }
  assert (view_with options steps =
          (render (run_with options steps).2 Number
             (run_with options steps).1).1) as -> by done.
  pose proof (shaped_run_with schema_parse Number options steps) as Hh.
  revert Hview Hh.
  destruct (run_with options steps) as [h current]. cbn [fst snd].
  intros Hview Hh. unfold step in *.
  destruct (render_with schema_parse Number current h Hh)
    as (Hh' & Hf & Hfv & Hv & _ & _ & Hnext & Hd
        & (v & o' & Hcell & Hvo & Hoo) & (d & Hcell' & Hdo)).
  revert Hview.
  destruct (render current Number h) as [f h1]. cbn [fst snd] in *.
  intros Hview.
  assert (oid (values (hk_store h1)) < next (hk_store h1)) as Hbound
    by apply Hh'.
  destruct (dispatch_with schema_parse Number f Validate (hk_store h1)
              Hf Hbound) as (_ & _ & Hvalidate & _).
  destruct Hvalidate as (Hvalues & _ & Hn); [done|].
  pose (after e := receive options'
                     (HookState (dispatch f e (hk_store h1)).2 (hk_memo h1))).
  assert (∀ e, view_with options (steps ++ [(e, options')]) =
               (render options' Number (after e)).1) as Hview'
    by (intros e; apply Hview).
  clear Hview. rewrite !Hview'.
  assert (∀ e, values (hk_store (after e)) = values (dispatch f e (hk_store h1)).2)
    as Hafter_values by done.
  assert (∀ e, hk_memo (after e) = hk_memo h1) as Hafter_memo by done.
  assert (∀ e, next (dispatch f e (hk_store h1)).2 ≤ next (hk_store (after e)))
    as Hafter_next by (intros e; simpl; lia).
  split; [|split; [|split]].
  - destruct (render_dirty schema_parse Number options' (after Validate))
      as (-> & _). rewrite Hafter_values. congruence.
  - intros Hsame.
    destruct (render_dirty schema_parse Number options' (after Validate))
      as (_ & -> & ->).
    rewrite Hafter_values, Hafter_memo, Hcell, Hcell'.
    rewrite !(useMemo_same same2).
    2:{ unfold same2, Object_is. cbn [fst snd].
        rewrite !bool_decide_true; [done|congruence|congruence]. }
    cbn [fst snd]. split; [done|].
    rewrite (useMemo_same same1); [done|].
    unfold same1, Object_is. by rewrite bool_decide_true.
  - intros Hother.
    destruct (render_dirty schema_parse Number options' (after Validate))
      as (-> & -> & ->).
    rewrite Hafter_values, Hafter_memo, Hcell, Hcell'.
    rewrite !(useMemo_other same2).
    2:{ unfold same2, Object_is. cbn [fst snd].
        rewrite (bool_decide_false (oid o' = _)) by congruence.
        apply andb_false_r. }
    cbn [dirty new_object fst snd oid props].
    specialize (Hafter_next Validate).
    split; [lia|]. split; [done|].
    rewrite (useMemo_other same1); [done|].
    unfold same1, Object_is. cbn [oid]. apply bool_decide_false. lia.
  - intros name w. rewrite Hview'.
    destruct (dispatch_with schema_parse Number f (SetFieldValue name w)
                (hk_store h1) Hf Hbound) as (Hn' & _ & _ & Hset).
    specialize (Hset name w eq_refl).
    destruct (render_dirty schema_parse Number options'
                (after (SetFieldValue name w))) as (_ & -> & _).
    rewrite Hafter_values, Hafter_memo, Hcell.
    rewrite (useMemo_other same2).
    2:{ unfold same2, Object_is. cbn [fst snd].
        rewrite (bool_decide_false (oid v = _)); [done|].
        rewrite Hset, Hvo, <- Hv. lia. }
    cbn [dirty new_object fst snd oid].
    specialize (Hafter_next (SetFieldValue name w)). lia.
Qed.

#[local] Abbreviation state_with := (Hook.state_with schema_parse Number).

(** X16. What the options of a render decide, in a session where the
    component passes the options object of its choice at each render (an
    identity naming one object). The cells do not follow the options:
    [values], [errors] and [touched] after an event are what the event
    made of them, whatever options the next render gets; after
    [validate()] [values] is the same object, and after
    [setFieldValue(name, v)] it is the previous one with [name] set to
    [v]. [dirty] does follow them: at every render each flag is the
    negation of [isEqual(values[key], options.initialValues[key])] for the
    options of that render, and [isDirty] tells whether some flag is
    [true]. *)
Theorem options_per_render options steps e options' :
  honest (options :: (steps ++ [(e, options')]).*2) →
  let current := (run_with options steps).2 in
  let f := view_with options steps in
  let f' := view_with options (steps ++ [(e, options')]) in
  f_values f' = values (dispatch f e (state_with options steps)).2 ∧
  f_errors f' = errors (dispatch f e (state_with options steps)).2 ∧
  f_touched f' = touched (dispatch f e (state_with options steps)).2 ∧
  (e = Validate → f_values f' = f_values f) ∧
  (∀ name v, e = SetFieldValue name v →
     props (f_values f') = <[name := v]> (props (f_values f)) ∧
     f_errors f' = f_errors f ∧
     f_touched f' = <[name := true]> (f_touched f)) ∧
  (∀ k, k ≠ "__proto__" →
     props (f_dirty f) !! k =
       (λ v, negb (isEqual (Data v) (get current k)))
         <$> props (f_values f) !! k) ∧
  (∀ k, k ≠ "__proto__" →
     props (f_dirty f') !! k =
       (λ v, negb (isEqual (Data v) (get options' k)))
         <$> props (f_values f') !! k) ∧
  (f_isDirty f' = true ↔ ∃ k, props (f_dirty f') !! k = Some true).
Proof.
  intros Hhonest. cbv zeta.
  destruct (view_with_after schema_parse Number options steps e options'
              Hhonest) as (Hvalues & Herrors & Htouched & Hdirty & Hany).
  destruct (view_with_spec schema_parse Number options steps
              (honest_init _ _ _ Hhonest)) as (d & Hview & Hd & _).
  split; [done|]. split; [done|]. split; [done|].
  split; [|split; [|split; [|split]]].
  - intros ->. rewrite Hvalues, Hview.
    cbn [dispatch form_of f_validate f_values]. unfold mbind, M_bind.
    rewrite validate_run.
    by destruct (schema_parse _) as [?|[?|?]].
  - intros name v ->. rewrite Hvalues, Herrors, Htouched, Hview.
    cbn [dispatch form_of f_setFieldValue f_values f_errors f_touched].
    by rewrite setFieldValue_run.
  - intros k Hk. rewrite Hview. cbn [form_of f_dirty f_values].
    rewrite Hd, dirty_flags_lookup. by rewrite bool_decide_false.
  - intros k Hk. rewrite Hdirty, dirty_flags_lookup.
    by rewrite bool_decide_false.
  - rewrite Hany. apply isDirty_true.
Qed.

(** X17. [reset()] in such a session restores the [initialValues] of the
    render whose [reset] was called, not those of the mount: [values]
    becomes a copy with the contents of that object and shares no object
    with it, and [errors] and [touched] are empty. When the next render
    gets options of the same contents, in the same object or in another,
    every [dirty] flag is [false] and [isDirty] is [false]. *)
Theorem reset_with_options options steps options' :
  honest (options :: (steps ++ [(Reset, options')]).*2) →
  let current := (run_with options steps).2 in
  let f' := view_with options (steps ++ [(Reset, options')]) in
  contents (to_value (f_values f')) = contents (to_value current) ∧
  (∀ l, reaches l (to_value (f_values f')) →
        ¬ reaches l (to_value current)) ∧
  f_errors f' = ∅ ∧
  f_touched f' = ∅ ∧
  (contents (to_value options') = contents (to_value current) →
     (∀ k flag, props (f_dirty f') !! k = Some flag → flag = false) ∧
     f_isDirty f' = false).
Proof.
  intros Hhonest. cbv zeta.
  destruct (view_with_after schema_parse Number options steps Reset options' Hhonest)
    as (Hvalues & Herrors & Htouched & Hdirty & Hany).
  destruct (view_with_spec schema_parse Number options steps (honest_init _ _ _ Hhonest))
    as (d0 & Hview & _ & _ & _ & _ & Hbound).
  rewrite Hview in Hvalues, Herrors, Htouched.
  cbn [dispatch form_of f_reset] in Hvalues, Herrors, Htouched.
  rewrite reset_run in Hvalues, Herrors, Htouched.
  cbn [snd values errors touched] in Hvalues, Herrors, Htouched.
  set (current := (run_with options steps).2) in *.
  set (n := next (state_with options steps)) in *.
  assert (to_value (relabel_obj (λ l, n + l) current) =
          relabel (λ l, n + l) (to_value current)) as Hclone by done.
  rewrite Hvalues, Herrors, Htouched, Hclone.
  split; [apply contents_relabel|]. split.
  { intros l Hl Hl'.
    apply reaches_relabel in Hl as (l0 & -> & _).
    apply reaches_bound in Hl'. lia. }
  split; [done|]. split; [done|].
  intros Hsame.
  assert (∀ k flag,
    props (f_dirty (view_with options (steps ++ [(Reset, options')]))) !! k
      = Some flag → flag = false) as Hclean.
  { intros k flag. rewrite Hdirty, dirty_flags_lookup.
    case_bool_decide; [done|]. rewrite Hvalues. cbn [relabel_obj props].
    rewrite lookup_fmap.
    destruct (props current !! k) as [x|] eqn:Hx; [|done].
    simpl. intros [= <-]. apply negb_false_iff.
    simpl in Hsame. injection Hsame as Hsame.
    assert ((contents <$> props options') !! k = Some (contents x)) as Hy.
    { by rewrite Hsame, lookup_fmap, Hx. }
    rewrite lookup_fmap in Hy.
    unfold get. destruct (props options' !! k) as [y|]; [|done].
    simpl in Hy. injection Hy as Hy.
    apply equal_contents. by rewrite contents_relabel. }
  split; [done|].
  rewrite Hany.
  destruct (isDirty _) eqn:Hflag; [|done].
  apply isDirty_true in Hflag as (k & Hk). by apply Hclean in Hk.
Qed.

(** X18. [validate()] in such a session judges the [values] of the
    render, whatever options the component passes: it returns [true] and
    empties [errors] when [schema.parse] returns, returns [false] and
    stores the joined messages of each field on a [ZodError], and returns
    [false] and leaves [errors] alone on any other failure; [values] (the
    same object) and [touched] are as before. *)
Theorem validate_with_options options steps options' :
  honest (options :: (steps ++ [(Validate, options')]).*2) →
  let f := view_with options steps in
  let f' := view_with options (steps ++ [(Validate, options')]) in
  let result := (f_validate f (state_with options steps)).1 in
  f_values f' = f_values f ∧
  f_touched f' = f_touched f ∧
  match schema_parse (f_values f) with
  | Return _ => result = Return true ∧ f_errors f' = ∅
  | Throw (ZodError flattenedErrors) =>
      result = Return false ∧
      f_errors f' = collect_fieldErrors flattenedErrors
  | Throw (OtherError _) => result = Return false ∧ f_errors f' = f_errors f
  end.
Proof.
  intros Hhonest. cbv zeta.
  destruct (view_with_after schema_parse Number options steps Validate
              options' Hhonest) as (Hvalues & Herrors & Htouched & _).
  destruct (view_with_spec schema_parse Number options steps
              (honest_init _ _ _ Hhonest)) as (d & Hview & _).
  rewrite Hvalues, Herrors, Htouched, Hview.
  cbn [dispatch form_of f_validate f_values f_errors f_touched].
  unfold mbind, M_bind. rewrite validate_run.
  by destruct (schema_parse _) as [parsed|[flattenedErrors|message]].
Qed.

End Sessions.
End FormMore.

(* ===================================================================== *)
(** ** More of the behaviour on the user form of the README *)
(* ===================================================================== *)

Module MoreExamples.
Import Js React Hook Demo FormMore.

(** At the first render of a form whose initial values hold a field
    [__proto__], [dirty] has no flag for that field: the flags are not,
    for every key, those of the keys of [initialValues]. *)
Lemma initial_render_proto_counterexample :
  props protoValues !! "__proto__" = Some (VStr "x") ∧
  props (f_dirty (view recordSchema protoValues Number [])) !! "__proto__"
    = None ∧
  ¬ (∀ (schema_parse : jsobj value → outcome value)
       (initialValues : jsobj value) (Number : string → num) (k : string),
       props (f_dirty (view schema_parse initialValues Number [])) !! k =
       (λ _, false) <$> props initialValues !! k).
Proof.
  split; [by vm_compute|]. split; [by vm_compute|].
  intros H. specialize (H recordSchema protoValues Number "__proto__").
  vm_compute in H. discriminate H.
Qed.

Lemma text_change_round_trip_witness :
  bind_text (user_form []) "name" = Return name_props ∧
  props (f_values (user_form [TextChange "name" "Ada"])) !! "name"
    = Some (VStr "Ada") ∧
  ∃ p', bind_text (user_form [TextChange "name" "Ada"]) "name" = Return p' ∧
        p_value p' = VStr "Ada".
Proof.
  assert (bind_text (user_form []) "name" = Return name_props) as Hp
    by reflexivity.
  destruct (text_change_round_trip userSchema initialValues Number
              [] "name" "Ada" name_props Hp)
    as (_ & Hvalue & _ & p' & Hp' & _ & Hshown).
  split; [exact Hp|]. split; [exact Hvalue|].
  exists p'. split; [exact Hp'|exact Hshown].
Defined.

(** [name] holds a string: its number binding throws. So does the
    number binding of [toString], a field the form does not have. *)
Lemma number_binding_spec_witness :
  bind_number (user_form []) "name" =
    Throw (OtherError
             "useSimpleFormState.number(): field 'name' is not a number") ∧
  (∃ p, bind_number (user_form [SetFieldValue "age" VNull]) "age" = Return p ∧
        p_name p = "age" ∧ p_value p = VStr "") ∧
  (∃ p, bind_number (user_form []) "height" = Return p ∧
        p_name p = "height" ∧ p_value p = VStr "") ∧
  bind_number (user_form []) "toString" =
    Throw (OtherError
             "useSimpleFormState.number(): field 'toString' is not a number").
Proof.
  split; [|split; [|split]].
  - destruct (number_binding_spec userSchema initialValues Number [] "name")
      as (Hthrow & _).
    apply Hthrow.
    + vm_compute. reflexivity.
    + vm_compute. discriminate.
  - destruct (number_binding_spec userSchema initialValues Number
                [SetFieldValue "age" VNull] "age") as (_ & Hnull & _).
    apply Hnull. left. vm_compute. reflexivity.
  - destruct (number_binding_spec userSchema initialValues Number [] "height")
      as (_ & _ & Habsent & _).
    apply Habsent.
    + vm_compute. reflexivity.
    + discriminate.
    + vm_compute. intros H. by repeat (apply elem_of_cons in H as [H|H];
        [discriminate H|]); apply elem_of_nil in H.
  - destruct (number_binding_spec userSchema initialValues Number []
                "toString") as (_ & _ & _ & Hinherited & _).
    apply Hinherited.
    + vm_compute. reflexivity.
    + right. vm_compute. repeat constructor.
Defined.

(** After the input ["abc"], [age] holds [NaN] and its number binding
    shows it. *)
Lemma number_change_round_trip_witness :
  (∃ p', bind_number (user_form [NumberChange "age" "abc"]) "age" = Return p' ∧
         p_value p' = VNum NaN) ∧
  (∃ p', bind_number (user_form [NumberChange "age" ""]) "age" = Return p' ∧
         p_value p' = VStr "").
Proof.
  assert (bind_number (user_form []) "age" = Return age_props) as Hp
    by reflexivity.
  split.
  - destruct (number_change_round_trip userSchema initialValues Number
                [] "age" "abc" age_props Hp) as (p' & Hp' & _ & Hshown).
    exists p'. split; [exact Hp'|exact Hshown].
  - destruct (number_change_round_trip userSchema initialValues Number
                [] "age" "" age_props Hp) as (p' & Hp' & _ & Hshown).
    exists p'. split; [exact Hp'|exact Hshown].
Defined.

(** The select binding of the numeric field [age] shows the number, and
    that of [hasOwnProperty], a field the form does not have, the function
    inherited from [Object.prototype]. *)
Lemma select_binding_spec_witness :
  (∃ p, bind_select (user_form []) "age" = Return p ∧ p_value p = VNum zero) ∧
  (∃ p, bind_select (user_form []) "hasOwnProperty" = Return p ∧
        p_value p = Builtin "hasOwnProperty").
Proof.
  split.
  - destruct (select_binding_spec userSchema initialValues Number [] "age")
      as (p & Hp & _ & Hshown & _).
    exists p. split; [exact Hp|]. rewrite Hshown; reflexivity.
  - destruct (select_binding_spec userSchema initialValues Number []
                "hasOwnProperty") as (p & Hp & _ & _ & _ & Hinherited & _).
    exists p. split; [exact Hp|]. rewrite Hinherited; reflexivity.
Defined.

(** [age] edited to [-1] and back to [0] is clean again. A field
    [constructor] is dirty even when it is set to [undefined]. *)
Lemma dirty_after_setFieldValue_witness :
  props (f_dirty (user_form [SetFieldValue "age" (VNum minus_one)])) !! "age"
    = Some true ∧
  props (f_dirty (user_form [SetFieldValue "age" (VNum minus_one);
                             SetFieldValue "age" (VNum zero)])) !! "age"
    = Some false ∧
  props (f_dirty (user_form [SetFieldValue "constructor" VUndefined]))
    !! "constructor" = Some true.
Proof.
  split; [|split].
  - destruct (dirty_after_setFieldValue userSchema initialValues Number
                [] "age" (VNum minus_one)) as (Hflag & _); [discriminate|].
    exact Hflag.
  - destruct (dirty_after_setFieldValue userSchema initialValues Number
                [SetFieldValue "age" (VNum minus_one)] "age" (VNum zero))
      as (_ & _ & Hclean & _); [discriminate|].
    destruct (Hclean (VNum zero)) as (Hflag & _); [reflexivity|reflexivity|].
    exact Hflag.
  - destruct (dirty_after_setFieldValue userSchema initialValues Number
                [] "constructor" VUndefined)
      as (_ & _ & _ & Hinherited); [discriminate|].
    apply Hinherited; [reflexivity|]. vm_compute. repeat constructor.
Defined.

Lemma touched_monotone_witness :
  f_touched (user_form [SetFieldValue "age" (VNum minus_one); Validate]) !! "age"
    = Some true.
Proof.
  destruct (touched_monotone userSchema initialValues Number
              [SetFieldValue "age" (VNum minus_one)]) as (_ & Hstays).
  apply (Hstays Validate "age").
  - discriminate.
  - vm_compute. reflexivity.
Defined.

Lemma touched_was_written_witness :
  ∃ e, e ∈ [TextChange "name" "Ada"; Validate] ∧ target e = Some "name".
Proof.
  apply (touched_was_written userSchema initialValues Number
           [TextChange "name" "Ada"; Validate] "name" true).
  vm_compute. reflexivity.
Defined.

(** The error of [name] stays in [errors] after the name is typed,
    until the next [validate()]. *)
Lemma errors_frozen_witness :
  f_errors (user_form [Validate; TextChange "name" "Ada"]) !! "name"
    = Some "Name is required" ∧
  f_errors (user_form [TextChange "name" "Ada"; SetFieldValue "age" VNull]) = ∅.
Proof.
  split.
  - destruct (errors_frozen userSchema initialValues Number [Validate])
      as (Hfrozen & _).
    pose proof (Hfrozen (TextChange "name" "Ada")) as Hstays.
    cbn [app] in Hstays. unfold user_form.
    rewrite Hstays by discriminate.
    vm_compute. reflexivity.
  - destruct (errors_frozen userSchema initialValues Number
                [TextChange "name" "Ada"; SetFieldValue "age" VNull])
      as (_ & Hempty).
    apply Hempty. repeat constructor; discriminate.
Defined.

Lemma setFieldValue_compose_witness :
  props (f_values (user_form [SetFieldValue "name" (VStr "Ada");
                              SetFieldValue "age" (VNum minus_one)]))
  = props (f_values (user_form [SetFieldValue "age" (VNum minus_one);
                                SetFieldValue "name" (VStr "Ada")])).
Proof.
  destruct (setFieldValue_compose userSchema initialValues Number []
              "name" (VStr "Ada") (VNum minus_one) "age") as (_ & Hcommute).
  destruct Hcommute as (Hvalues & _); [discriminate|]. exact Hvalues.
Defined.

(** The initial values violate the schema: [validate()] is [false]. *)
Lemma validate_verdict_witness :
  (f_validate (user_form []) (user_cells [])).1 = Return false ∧
  (f_validate (user_form [TextChange "name" "Ada"])
     (user_cells [TextChange "name" "Ada"])).1 = Return true.
Proof.
  split.
  - destruct (validate_verdict userSchema initialValues Number [])
      as (_ & _ & Hfalse).
    apply Hfalse. intros Hempty.
    apply (f_equal (λ m : gmap string string, m !! "name")) in Hempty.
    vm_compute in Hempty. discriminate Hempty.
  - destruct (validate_verdict userSchema initialValues Number
                [TextChange "name" "Ada"]) as (_ & Htrue & _).
    apply Htrue. eexists. vm_compute. reflexivity.
Defined.

(** A handler that writes a valid name and validates at once still gets
    [false] and the error of the empty name, though the values it leaves
    satisfy the schema. *)
Lemma validate_in_same_handler_witness :
  let f := user_form [] in
  let r := (f_setFieldValue f "name" (VStr "Ada");; f_validate f) (user_cells []) in
  r.1 = Return false ∧
  errors r.2 !! "name" = Some "Name is required" ∧
  props (values r.2) !! "name" = Some (VStr "Ada") ∧
  ∃ parsed, userSchema (values r.2) = Return parsed.
Proof.
  destruct (validate_in_same_handler userSchema initialValues Number
              [] "name" (VStr "Ada")) as (Hresult & Herrors & Hvalues & _).
  cbv zeta. unfold user_form, user_cells.
  rewrite Hresult, Herrors, Hvalues.
  split; [by vm_compute|]. split; [by vm_compute|].
  split; [by vm_compute|]. eexists. vm_compute. reflexivity.
Defined.

(** After [validate()], the render of a component that passes its
    options object again returns the same [dirty] object, and the render of
    one that evaluates the object literal again a new one, with the same
    flags. *)
Lemma dirty_memo_identity_witness :
  f_dirty (user_form_with [(Validate, initialValues)]) = f_dirty (user_form_with [])
  ∧ oid (f_dirty (user_form_with [(Validate, initialValues_again)]))
      ≠ oid (f_dirty (user_form_with []))
  ∧ props (f_dirty (user_form_with [(Validate, initialValues_again)]))
      = props (f_dirty (user_form_with [])).
Proof.
  split; [|split].
  - destruct (dirty_memo_identity userSchema Number initialValues []
                initialValues) as (_ & Hsame & _).
    destruct Hsame as (Hdirty & _); [reflexivity|]. exact Hdirty.
  - destruct (dirty_memo_identity userSchema Number initialValues []
                initialValues_again) as (_ & _ & Hother & _).
    destruct Hother as (Hdirty & _); [discriminate|]. exact Hdirty.
  - destruct (dirty_memo_identity userSchema Number initialValues []
                initialValues_again) as (_ & _ & Hother & _).
    destruct Hother as (_ & Hflags & _); [discriminate|].
    unfold user_form_with. cbn [app] in Hflags. rewrite Hflags.
    vm_compute. reflexivity.
Defined.

(** On a form with a nested object and an array: writing an address with
    the same contents, in a new object, leaves [address] clean; writing
    another city makes it dirty. *)
Lemma dirty_per_field_witness :
  props (f_dirty (nested_form
                    [SetFieldValue "address" (VObj 9 {["city" := VStr "Oslo"]})]))
    !! "address" = Some false ∧
  props (f_dirty (nested_form
                    [SetFieldValue "address" (VObj 9 {["city" := VStr "Rome"]})]))
    !! "address" = Some true.
Proof.
  split.
  - destruct (dirty_per_field userSchema nestedValues Number
                [SetFieldValue "address" (VObj 9 {["city" := VStr "Oslo"]})])
      as (_ & Hdeep & _).
    destruct (Hdeep "address" (VObj 9 {["city" := VStr "Oslo"]})
                (VObj 1 {["city" := VStr "Oslo"]})) as (Hclean & _).
    + discriminate.
    + vm_compute. reflexivity.
    + vm_compute. reflexivity.
    + apply Hclean. vm_compute. reflexivity.
  - destruct (dirty_per_field userSchema nestedValues Number
                [SetFieldValue "address" (VObj 9 {["city" := VStr "Rome"]})])
      as (Hflag & _).
    unfold nested_form. rewrite (Hflag "address") by discriminate.
    vm_compute. reflexivity.
Defined.

(** Options objects of different identities make an honest session. *)
Ltac honest_options :=
  let o1 := fresh "o" in let o2 := fresh "o" in
  let H1 := fresh "H" in let H2 := fresh "H" in let Hoid := fresh "H" in
  simpl; intros o1 o2 H1 H2 Hoid;
  repeat (apply elem_of_cons in H1 as [->|H1]);
  try (by apply elem_of_nil in H1);
  repeat (apply elem_of_cons in H2 as [->|H2]);
  try (by apply elem_of_nil in H2);
  first [reflexivity|discriminate Hoid].

(** With no edit at all, [name] becomes dirty when the component passes
    options with another initial name, and [values] is still the object
    of the mount. *)
Lemma options_per_render_witness :
  props (f_dirty (user_form_with [(Validate, otherValues)])) !! "name"
    = Some true ∧
  props (f_dirty (user_form_with [])) !! "name" = Some false ∧
  f_values (user_form_with [(Validate, otherValues)]) = initialValues.
Proof.
  assert (honest (initialValues :: ([] ++ [(Validate, otherValues)]).*2))
    as Hhonest.
  { honest_options. }
  destruct (options_per_render userSchema Number initialValues []
              Validate otherValues Hhonest)
    as (_ & _ & _ & Hkeep & _ & _ & Hdirty & _).
  split; [|split].
  - unfold user_form_with. cbn [app] in Hdirty.
    rewrite (Hdirty "name") by discriminate. vm_compute. reflexivity.
  - vm_compute. reflexivity.
  - unfold user_form_with. cbn [app] in Hkeep. rewrite Hkeep; reflexivity.
Defined.

(** A name is typed, then the form is reset, and the next render
    evaluates the object literal again: the form is clean. *)
Lemma reset_with_options_witness :
  props (f_values (user_form_with
                     [(SetFieldValue "name" (VStr "Ada"), initialValues);
                      (Reset, initialValues_again)])) !! "name"
    = Some (VStr "") ∧
  f_isDirty (user_form_with
               [(SetFieldValue "name" (VStr "Ada"), initialValues);
                (Reset, initialValues_again)]) = false.
Proof.
  assert (honest (initialValues ::
                  ([(SetFieldValue "name" (VStr "Ada"), initialValues)]
                   ++ [(Reset, initialValues_again)]).*2)) as Hhonest.
  { honest_options. }
  destruct (reset_with_options userSchema Number initialValues
              [(SetFieldValue "name" (VStr "Ada"), initialValues)]
              initialValues_again Hhonest)
    as (_ & _ & _ & _ & Hclean).
  split; [vm_compute; reflexivity|].
  destruct Hclean as (_ & HisDirty); [reflexivity|]. exact HisDirty.
Defined.

(** The first [validate()] of the user form, in a component that
    evaluates the object literal again at the next render. *)
Lemma validate_with_options_witness :
  f_errors (user_form_with [(Validate, initialValues_again)]) !! "name"
    = Some "Name is required" ∧
  f_values (user_form_with [(Validate, initialValues_again)]) = initialValues.
Proof.
  assert (honest (initialValues ::
                  ([] ++ [(Validate, initialValues_again)]).*2)) as Hhonest.
  { honest_options. }
  destruct (validate_with_options userSchema Number initialValues []
              initialValues_again Hhonest) as (Hvalues & _ & Hverdict).
  split.
  - vm_compute. reflexivity.
  - unfold user_form_with. cbn [app] in Hvalues. rewrite Hvalues. reflexivity.
Defined.

End MoreExamples.
